(** * CLV prediction engine (app.py): a shallow embedding and its properties

    The dashboard script loads a transaction log, asks the [lifetimes]
    library for an RFM summary, fits two models, scores every customer and
    labels the selected customer HIGH / MEDIUM / LOW.

    Numbers are rationals ([Q]); a table cell is a number or the missing
    value NaN (NaT for a timestamp, which pandas keeps as an offset from the
    epoch).  Python exceptions are an explicit error type and every step that
    can raise returns a [result].  Calls that only render (st.write,
    st.metric, plotly figures) are left out; what their arguments evaluate
    is kept where it can raise. *)

From Stdlib Require Import List String ZArith QArith Qround Lqa Lia Bool.
From Stdlib Require Import Permutation Sorted DecimalString DecimalZ DecimalPos.
Import ListNotations.
Local Open Scope string_scope.
Local Open Scope list_scope.

(** ** Exceptions and the error monad *)

Inductive exn : Type :=
| NameError (name : string)
| KeyError (key : string)
| LabelKeyError (label : Z)
| UndefinedVariableError (name : string)
| FileNotFoundError
| TypeError
| ValueError
| OtherError (msg : string).

Inductive result (A : Type) : Type :=
| Ok (a : A)
| Raise (e : exn).
Arguments Ok {A} a.
Arguments Raise {A} e.

Definition bind {A B : Type} (m : result A) (k : A -> result B) : result B :=
  match m with
  | Ok a => k a
  | Raise e => Raise e
  end.

Notation "x <- m ;; k" := (bind m (fun x => k))
  (at level 61, m at next level, right associativity).

Definition is_ok {A : Type} (m : result A) : bool :=
  match m with Ok _ => true | Raise _ => false end.

(** ** Cells, Series and DataFrames *)

Inductive cell : Type :=
| NaN
| Num (q : Q).

(** Python's [a > b] on floats: exact on numbers, [False] as soon as one
    side is NaN. *)
Definition Qgtb (a b : Q) : bool := negb (Qle_bool a b).

Definition cell_gt (a b : cell) : bool :=
  match a, b with
  | Num x, Num y => Qgtb x y
  | _, _ => false
  end.

(** A Series is a list of (index label, value); a DataFrame is a list of
    column names and a list of labelled rows, each row holding one cell per
    column. *)
Definition Series : Type := list (Z * cell).

Record DataFrame : Type := mkDataFrame {
  df_columns : list string;
  df_rows : list (Z * list cell)
}.

Definition s_index (s : Series) : list Z := map fst s.
Definition s_values (s : Series) : list cell := map snd s.
Definition df_index (df : DataFrame) : list Z := map fst (df_rows df).

Fixpoint position (name : string) (cols : list string) : option nat :=
  match cols with
  | [] => None
  | c :: cs =>
      if String.eqb c name then Some O
      else option_map S (position name cs)
  end.

Definition row_cell (j : nat) (r : Z * list cell) : Z * cell :=
  (fst r, nth j (snd r) NaN).

(** [df[name]] *)
Definition getitem (df : DataFrame) (name : string) : result Series :=
  match position name (df_columns df) with
  | None => Raise (KeyError name)
  | Some j => Ok (map (row_cell j) (df_rows df))
  end.

(** [name in df.columns] *)
Definition has_column (name : string) (df : DataFrame) : bool :=
  match position name (df_columns df) with Some _ => true | None => false end.

(** [Series.max()]: the largest number of the column, NaN (NaT) values
    skipped; NaN when nothing is left. *)
Definition cell_max (a b : cell) : cell :=
  match a, b with
  | NaN, _ => b
  | _, NaN => a
  | Num x, Num y => if Qle_bool x y then Num y else Num x
  end.

Definition series_max (s : Series) : cell :=
  fold_right cell_max NaN (s_values s).

(** [df.rename(columns={old: new}, inplace=True)] *)
Definition rename_column (old new : string) (df : DataFrame) : DataFrame :=
  mkDataFrame
    (map (fun c => if String.eqb c old then new else c) (df_columns df))
    (df_rows df).

Fixpoint lookup_label (l : Z) (s : Series) : cell :=
  match s with
  | [] => NaN
  | (l', v) :: s' => if Z.eqb l' l then v else lookup_label l s'
  end.

Fixpoint replace_nth (j : nat) (v : cell) (cs : list cell) : list cell :=
  match j, cs with
  | _, [] => [v]
  | O, _ :: cs' => v :: cs'
  | S j', c :: cs' => c :: replace_nth j' v cs'
  end.

(** Where a cell goes in a row: into the column that exists, or behind the
    last cell when the column is new. *)
Definition put_cell (pos : option nat) (v : cell) (cs : list cell) : list cell :=
  match pos with
  | Some j => replace_nth j v cs
  | None => cs ++ [v]
  end.

Definition columns_with (name : string) (df : DataFrame) : list string :=
  match position name (df_columns df) with
  | Some _ => df_columns df
  | None => df_columns df ++ [name]
  end.

(** The assignment aligned on labels: each row receives the value the
    Series holds at its label, NaN when it has none. *)
Definition assign_aligned (df : DataFrame) (name : string) (s : Series)
  : DataFrame :=
  mkDataFrame (columns_with name df)
    (map (fun r => (fst r,
                    put_cell (position name (df_columns df))
                             (lookup_label (fst r) s) (snd r)))
         (df_rows df)).

(** The assignment by position: the i-th row receives the i-th value. *)
Definition assign_positional (df : DataFrame) (name : string)
    (rows : list (Z * list cell)) (values : list cell) : DataFrame :=
  mkDataFrame (columns_with name df)
    (map (fun rv => (fst (fst rv),
                     put_cell (position name (df_columns df))
                              (snd rv) (snd (fst rv))))
         (combine rows values)).

Fixpoint index_equal (a b : list Z) : bool :=
  match a, b with
  | [], [] => true
  | x :: a', y :: b' => Z.eqb x y && index_equal a' b'
  | _, _ => false
  end.

Fixpoint has_duplicates (l : list Z) : bool :=
  match l with
  | [] => false
  | x :: l' => existsb (Z.eqb x) l' || has_duplicates l'
  end.

(** [df[name] = s] for a Series [s].  A frame without rows takes over the
    labels of the Series, its other columns filled with NaN.  Otherwise a
    Series with the very index of the frame is written by position; any
    other Series is reindexed on the labels of the frame, which raises
    ValueError when the Series repeats a label.  An existing column is
    overwritten, a new one is appended. *)
Definition setitem (df : DataFrame) (name : string) (s : Series)
  : result DataFrame :=
  match df_rows df with
  | [] =>
      Ok (assign_positional df name
            (map (fun x => (fst x,
                            repeat NaN (List.length (df_columns df)))) s)
            (s_values s))
  | _ :: _ =>
      if index_equal (s_index s) (df_index df)
      then Ok (assign_positional df name (df_rows df) (s_values s))
      else if has_duplicates (s_index s) then Raise ValueError
      else Ok (assign_aligned df name s)
  end.

(** Whether line 78 can assign the Series at all. *)
Definition assignable (df : DataFrame) (s : Series) : bool :=
  match df_rows df with
  | [] => true
  | _ :: _ =>
      index_equal (s_index s) (df_index df) || negb (has_duplicates (s_index s))
  end.

(** ** Module globals and name resolution *)

(** What a module-level name can be bound to when line 29 looks it up: a
    callable with the signature of the RFM aggregator, or anything else
    (modules, classes, the three functions of the script). *)
Definition aggregator : Type :=
  DataFrame -> string -> string -> string -> cell -> result DataFrame.

Inductive pyobj : Type :=
| PyOther
| PyAggregator (f : aggregator).

Definition globals : Type := list (string * pyobj).

Fixpoint lookup_global (g : globals) (name : string) : result pyobj :=
  match g with
  | [] => Raise (NameError name)
  | (n, o) :: g' => if String.eqb n name then Ok o else lookup_global g' name
  end.

(** The names app.py binds before line 63 runs: the imports of lines 1-5,
    the three [def]s and [transaction_df].  Nothing binds
    [summary_data_from_transaction_data], and it is not a Python builtin. *)
Definition app_globals : globals :=
  [ ("pd", PyOther); ("st", PyOther);
    ("BetaGeoFitter", PyOther); ("GammaGammaFitter", PyOther);
    ("plot_period_transactions", PyOther); ("go", PyOther);
    ("load_local_transaction_data", PyOther);
    ("prepare_lifetimes_data", PyOther);
    ("train_clv_models", PyOther);
    ("transaction_df", PyOther) ].

Definition call_aggregator (o : pyobj) (df : DataFrame)
    (customer_id_col datetime_col monetary_value_col : string)
    (observation_period_end : cell) : result DataFrame :=
  match o with
  | PyAggregator f =>
      f df customer_id_col datetime_col monetary_value_col observation_period_end
  | PyOther => Raise TypeError
  end.

(** ** 2. Lifetimes data preparation (lines 23-36) *)

(** Line 28: [observation_period_end = df['date'].max()]. *)
Definition observation_period_end (df : DataFrame) : result cell :=
  dates <- getitem df "date" ;;
  Ok (series_max dates).

(** Lines 29-36.  The callee's name is resolved when the call is reached,
    after line 28 has run and before the call is made. *)
Definition prepare_lifetimes_data (g : globals) (df : DataFrame)
  : result DataFrame :=
  end_of_observation <- observation_period_end df ;;
  f <- lookup_global g "summary_data_from_transaction_data" ;;
  call_aggregator f df "customer_id" "date" "monetary_value"
                  end_of_observation.

(** ** The model-fitting library

    [lifetimes] is imported, not defined, by the script: its fitters and its
    scorer are an interface here.  A fitter is built with its penalizer
    coefficient and fitted in one step; any of the calls may raise. *)

Class Lifetimes : Type := {
  BetaGeoFitter : Type;
  GammaGammaFitter : Type;
  bgf_fit : Q -> Series -> Series -> Series -> result BetaGeoFitter;
  ggf_fit : Q -> Series -> Series -> result GammaGammaFitter;
  customer_lifetime_value :
    GammaGammaFitter -> BetaGeoFitter ->
    Series -> Series -> Series -> Series -> Z -> Q -> result Series
}.

(** ** 3. Model training (lines 39-48) *)

Definition row_positive (jf jm : nat) (r : Z * list cell) : bool :=
  cell_gt (nth jf (snd r) NaN) (Num 0) && cell_gt (nth jm (snd r) NaN) (Num 0).

(** [summary_df.query("frequency > 0 and monetary_value > 0")] *)
Definition query_frequency_and_monetary_value (df : DataFrame)
  : result DataFrame :=
  match position "frequency" (df_columns df) with
  | None => Raise (UndefinedVariableError "frequency")
  | Some jf =>
      match position "monetary_value" (df_columns df) with
      | None => Raise (UndefinedVariableError "monetary_value")
      | Some jm =>
          Ok (mkDataFrame (df_columns df)
                (filter (row_positive jf jm) (df_rows df)))
      end
  end.

Definition train_clv_models {L : Lifetimes} (summary_df : DataFrame)
  : result (BetaGeoFitter * GammaGammaFitter) :=
  ggf_ready_df <- query_frequency_and_monetary_value summary_df ;;
  frequency <- getitem summary_df "frequency" ;;
  recency <- getitem summary_df "recency" ;;
  T <- getitem summary_df "T" ;;
  bgf <- bgf_fit 0 frequency recency T ;;
  ready_frequency <- getitem ggf_ready_df "frequency" ;;
  ready_monetary_value <- getitem ggf_ready_df "monetary_value" ;;
  ggf <- ggf_fit 0 ready_frequency ready_monetary_value ;;
  Ok (bgf, ggf).

(** ** Section 1 of the page: CLV for all customers (lines 68-78) *)

Definition clv_forecast {L : Lifetimes}
    (bgf_model : BetaGeoFitter) (ggf_model : GammaGammaFitter)
    (rfm_df : DataFrame) : result DataFrame :=
  frequency <- getitem rfm_df "frequency" ;;
  recency <- getitem rfm_df "recency" ;;
  T <- getitem rfm_df "T" ;;
  monetary_value <- getitem rfm_df "monetary_value" ;;
  clv <- customer_lifetime_value ggf_model bgf_model
           frequency recency T monetary_value 12 (1 # 100) ;;
  setitem rfm_df "predicted_clv_12_months" clv.

(** ** Section 2 of the page: the selected customer (lines 92-117) *)

Inductive Segment : Type := HIGH | MEDIUM | LOW.

(** Lines 112-117, by the message shown: st.success is the high-value
    branch, st.info the medium one, st.warning the low one. *)
Definition recommendation (customer_clv clv_threshold_high clv_threshold_low : cell)
  : Segment :=
  if cell_gt customer_clv clv_threshold_high then HIGH
  else if cell_gt customer_clv clv_threshold_low then MEDIUM
  else LOW.

(** [Series.dropna()]: the numbers of a Series, missing values left out. *)
Definition dropna (s : Series) : list Q :=
  flat_map (fun v => match snd v with Num q => [q] | NaN => [] end) s.

(** Modelled from the spec: the quantile of section 4.4 ranks the values,
    so they are put in ascending order first (pandas code, not in the
    source tree); an insertion sort. *)
Fixpoint insert_sorted (x : Q) (l : list Q) : list Q :=
  match l with
  | [] => [x]
  | y :: l' => if Qle_bool x y then x :: l else y :: insert_sorted x l'
  end.

Definition sort_values (l : list Q) : list Q :=
  fold_right insert_sorted [] l.

(** Every entry is at most the entries after it. *)
Fixpoint ascending (l : list Q) : Prop :=
  match l with
  | [] => True
  | x :: l' => (forall y, In y l' -> x <= y) /\ ascending l'
  end.

(** Modelled from the spec: linear interpolation between the two nearest
    ranks (section 4.4; pandas code, not in the source tree).  The value at
    fractional position [pos] of an ascending list is the entry at
    [floor pos], moved towards the next entry by the fractional part. *)
Definition interpolate (sorted : list Q) (pos : Q) : Q :=
  let n := Z.of_nat (List.length sorted) in
  let lo := Qfloor pos in
  let hi := Z.min (lo + 1) (n - 1) in
  let a := nth (Z.to_nat lo) sorted 0 in
  let b := nth (Z.to_nat hi) sorted 0 in
  a + (b - a) * (pos - inject_Z lo).

(** Modelled from the spec: [Series.quantile] is pandas code and is not in
    the source tree.  Section 4.4 of the spec gives the method: inclusive,
    linear interpolation between the two nearest ranks, that is position
    [q * (n - 1)] of the ascending values; missing values are skipped and
    an empty population has no quantile. *)
Definition series_quantile (s : Series) (q : Q) : cell :=
  match sort_values (dropna s) with
  | [] => NaN
  | x :: xs =>
      Num (interpolate (x :: xs) (q * (inject_Z (Z.of_nat (List.length (x :: xs))) - 1)))
  end.

(** What [rfm_df.loc[label]] hands back: the row with that label, or, when
    the label is repeated, the frame of all rows that carry it. *)
Inductive located : Type :=
| OneRow (row : list cell)
| SubFrame (rows : list (Z * list cell)).

(** [rfm_df.loc[label]]; a label the index does not have is a KeyError. *)
Definition loc (df : DataFrame) (label : Z) : result located :=
  match filter (fun r => Z.eqb (fst r) label) (df_rows df) with
  | [] => Raise (LabelKeyError label)
  | [r] => Ok (OneRow (snd r))
  | rs => Ok (SubFrame rs)
  end.

(** What [customer_data[name]] is: a cell of the row, or a column of the
    frame. *)
Inductive field : Type :=
| Scalar (c : cell)
| Column (s : Series).

Definition located_getitem (df : DataFrame) (customer_data : located)
    (name : string) : result field :=
  match position name (df_columns df) with
  | None => Raise (KeyError name)
  | Some j =>
      match customer_data with
      | OneRow row => Ok (Scalar (nth j row NaN))
      | SubFrame rows => Ok (Column (map (row_cell j) rows))
      end
  end.

(** Python's [int] on a float: truncation towards zero, ValueError on NaN. *)
Definition int_of_cell (c : cell) : result Z :=
  match c with
  | Num q => Ok (if Qle_bool 0 q then Qfloor q else Qceiling q)
  | NaN => Raise ValueError
  end.

(** [int(x)] as lines 103-104 call it: on a Series of more than one entry
    it is a TypeError. *)
Definition py_int (x : field) : result Z :=
  match x with
  | Scalar c => int_of_cell c
  | Column [entry] => int_of_cell (snd entry)
  | Column _ => Raise TypeError
  end.

(** The format [{x:.2f}] of lines 105 and 108: any float, NaN included, is
    printed; a Series does not take the format. *)
Definition format_2f (x : field) : result unit :=
  match x with
  | Scalar _ => Ok tt
  | Column _ => Raise TypeError
  end.

(** Lines 110-117, under "Strategic Recommendation": the thresholds are the
    0.8 and 0.4 quantiles of the whole predicted column, and the customer's
    predicted value is compared with them.  Comparing a Series with a
    threshold in [if] is a ValueError. *)
Definition strategic_recommendation (rfm_df : DataFrame) (customer_clv : field)
  : result Segment :=
  predicted <- getitem rfm_df "predicted_clv_12_months" ;;
  let clv_threshold_high := series_quantile predicted (4 # 5) in
  let clv_threshold_low := series_quantile predicted (2 # 5) in
  match customer_clv with
  | Scalar clv =>
      Ok (recommendation clv clv_threshold_high clv_threshold_low)
  | Column _ => Raise ValueError
  end.

(** Lines 96-117 for the customer the select box returned: the lookup, the
    four metrics in the order the page evaluates them, and the
    recommendation. *)
Definition segment_of_selected (rfm_df : DataFrame) (customer_id_int : Z)
  : result Segment :=
  customer_data <- loc rfm_df customer_id_int ;;
  customer_clv <-
    located_getitem rfm_df customer_data "predicted_clv_12_months" ;;
  frequency <- located_getitem rfm_df customer_data "frequency" ;;
  _ <- py_int frequency ;;
  recency <- located_getitem rfm_df customer_data "recency" ;;
  _ <- py_int recency ;;
  monetary_value <- located_getitem rfm_df customer_data "monetary_value" ;;
  _ <- format_2f monetary_value ;;
  _ <- format_2f customer_clv ;;
  strategic_recommendation rfm_df customer_clv.

(** ** 1. Data loading (lines 8-20) and the main logic (lines 60-117) *)

(** The entry [st.cache_data] keeps for the argument-less loader: nothing
    yet, or the value the first completed call returned. *)
Definition cache : Type := option (option DataFrame).

(** [read_csv] is what [pd.read_csv('cdnow.csv', ...)] does on the file as
    it is on disk: the parsed frame, or the exception it raises.  Only
    FileNotFoundError is caught; a call that raises stores nothing. *)
Definition load_local_transaction_data (read_csv : result DataFrame) (c : cache)
  : result (option DataFrame) * cache :=
  match c with
  | Some v => (Ok v, c)
  | None =>
      match read_csv with
      | Ok df =>
          let df := rename_column "price" "monetary_value" df in
          (Ok (Some df), Some (Some df))
      | Raise FileNotFoundError => (Ok None, Some None)
      | Raise e => (Raise e, None)
      end
  end.

Record Report : Type := mkReport {
  report_rfm : DataFrame;
  report_segment : option (Z * Segment)
}.

(** The body of [if transaction_df is not None:].  [selectbox] is the
    widget: the customer the analyst picked among the options offered. *)
Definition analyse {L : Lifetimes} (g : globals)
    (selectbox : list Z -> option Z) (transaction_df : DataFrame)
  : result Report :=
  rfm_df <- prepare_lifetimes_data g transaction_df ;;
  models <- train_clv_models rfm_df ;;
  rfm_df <- clv_forecast (fst models) (snd models) rfm_df ;;
  match selectbox (df_index rfm_df) with
  | None => Ok (mkReport rfm_df None)
  | Some customer_id_int =>
      s <- segment_of_selected rfm_df customer_id_int ;;
      Ok (mkReport rfm_df (Some (customer_id_int, s)))
  end.

Definition main {L : Lifetimes} (g : globals)
    (read_csv : result DataFrame) (selectbox : list Z -> option Z) (c : cache)
  : result (option Report) * cache :=
  let (transaction_df, c') := load_local_transaction_data read_csv c in
  (match transaction_df with
   | Raise e => Raise e
   | Ok None => Ok None
   | Ok (Some df) => r <- analyse g selectbox df ;; Ok (Some r)
   end, c').

(** ** The discounted-cash-flow score *)

(** Modelled from the spec: (1 + discount_rate) to the power of the period,
    the divisor of section 4.3's formula. *)
Fixpoint compound (discount_rate : Q) (period : nat) : Q :=
  match period with
  | O => 1
  | S p => (1 + discount_rate) * compound discount_rate p
  end.

(** Modelled from the spec: [customer_lifetime_value] is code of the
    lifetimes library and is not in the source tree, which only calls it
    with [time=12] and [discount_rate=0.01].  Section 4.3 of the spec gives
    the recipe: the sum, over each future period of the horizon, of that
    period's expected transactions times the expected value per transaction,
    divided by (1 + discount_rate) to the power of the period. *)
Fixpoint predicted_value (expected_transactions : nat -> Q) (expected_value : Q)
    (discount_rate : Q) (horizon : nat) : Q :=
  match horizon with
  | O => 0
  | S h =>
      predicted_value expected_transactions expected_value discount_rate h
      + expected_transactions (S h) * expected_value
        / compound discount_rate (S h)
  end.

(** ** A deterministic stand-in for the library

    Section 9 of the spec asks for a stub model with a constant
    expected-transactions function.  Its fitters only remember the data they
    were fitted on; its scorer expects one transaction per period, each worth
    the customer's monetary value, and answers with one entry per entry of
    the frequency Series it was given. *)

Definition stub_score (time : Z) (discount_rate : Q) (monetary_value : cell)
  : cell :=
  match monetary_value with
  | Num m => Num (Qred (predicted_value (fun _ => 1) m discount_rate (Z.to_nat time)))
  | NaN => NaN
  end.

Definition stub_lifetimes : Lifetimes := {|
  BetaGeoFitter := Series * Series * Series;
  GammaGammaFitter := Series * Series;
  bgf_fit := fun _ frequency recency T => Ok (frequency, recency, T);
  ggf_fit := fun _ frequency monetary_value => Ok (frequency, monetary_value);
  customer_lifetime_value :=
    fun _ _ frequency _ _ monetary_value time discount_rate =>
      Ok (map (fun x => (fst x,
                         stub_score time discount_rate
                                    (lookup_label (fst x) monetary_value)))
              frequency)
|}.

(** ** Example tables *)

Definition day (d : Z) : cell := Num (inject_Z d).
Definition usd (d : Z) : cell := Num (inject_Z d).
Definition customer (c : Z) : cell := Num (inject_Z c).

(** The store of section 8 of the spec, customer A as 1 and B as 2. *)
Definition example_store : DataFrame :=
  mkDataFrame ["customer_id"; "date"; "monetary_value"]
    [ (0%Z, [customer 1; day 0; usd 10]);
      (1%Z, [customer 1; day 10; usd 20]);
      (2%Z, [customer 1; day 20; usd 30]);
      (3%Z, [customer 2; day 15; usd 5]) ].

(** A store with a single purchase. *)
Definition single_purchase_store : DataFrame :=
  mkDataFrame ["customer_id"; "date"; "monetary_value"]
    [ (0%Z, [customer 1; day 3; usd 12]) ].

(** A frame whose dates are its index, as [read_csv(index_col=0)] makes
    them when the date is the first column of the file: no [date] column. *)
Definition store_indexed_by_date : DataFrame :=
  mkDataFrame ["customer_id"; "monetary_value"]
    [ (0%Z, [customer 1; usd 10]) ].

(** An RFM table: customer 1 bought twice more for 25 on average, customer 2
    bought once, customer 7 came back twice for free items. *)
Definition example_rfm : DataFrame :=
  mkDataFrame ["frequency"; "recency"; "T"; "monetary_value"]
    [ (1%Z, [Num 2; Num 20; Num 20; Num 25]);
      (2%Z, [Num 0; Num 0; Num 5; Num 0]);
      (7%Z, [Num 2; Num 5; Num 9; Num 0]) ].

(** The aggregator a test double would bind: it ignores the store and
    answers with [example_rfm]. *)
Definition constant_aggregator : aggregator :=
  fun _ _ _ _ _ => Ok example_rfm.

Definition patched_globals : globals :=
  ("summary_data_from_transaction_data", PyAggregator constant_aggregator)
    :: app_globals.

(** ** The rest of the page: option list and top-10 table *)

(** Every row holds one cell per column. *)
Definition well_formed (df : DataFrame) : Prop :=
  Forall (fun r => List.length (snd r) = List.length (df_columns df))
         (df_rows df).

(** Rows that fit the columns of a frame. *)
Definition rectangular (df : DataFrame) (rows : list (Z * list cell)) : Prop :=
  Forall (fun r => List.length (snd r) = List.length (df_columns df)) rows.

(** The tiers in the order the page ranks them. *)
Definition tier (s : Segment) : nat :=
  match s with LOW => 0 | MEDIUM => 1 | HIGH => 2 end.

(** Python's [str] on an int: decimal digits, a minus sign before a
    negative number, ["0"] for zero. *)
Definition str (z : Z) : string := NilZero.string_of_int (Z.to_int z).

(** Line 92: [rfm_df.index.astype(str).tolist()]. *)
Definition customer_list (rfm_df : DataFrame) : list string :=
  map str (df_index rfm_df).

(** Descending order of [sort_values(ascending=False)]: a missing value
    goes last, a larger number goes first. *)
Definition ranks_before (a b : cell) : bool :=
  match a, b with
  | _, NaN => true
  | NaN, Num _ => false
  | Num x, Num y => Qle_bool y x
  end.

Fixpoint insert_row (j : nat) (r : Z * list cell) (rows : list (Z * list cell))
  : list (Z * list cell) :=
  match rows with
  | [] => [r]
  | r' :: rs =>
      if ranks_before (nth j (snd r) NaN) (nth j (snd r') NaN)
      then r :: rows
      else r' :: insert_row j r rs
  end.

(** [df.sort_values(by=name, ascending=False)].  pandas promises no order
    among rows with equal values; here they stay in the order the insertion
    leaves them, and nothing proved below depends on it. *)
Definition sort_values_descending (df : DataFrame) (name : string)
  : result DataFrame :=
  match position name (df_columns df) with
  | None => Raise (KeyError name)
  | Some j =>
      Ok (mkDataFrame (df_columns df)
            (fold_right (insert_row j) [] (df_rows df)))
  end.

(** [df.head(n)] *)
Definition head (n : nat) (df : DataFrame) : DataFrame :=
  mkDataFrame (df_columns df) (firstn n (df_rows df)).

(** Line 130: the table under "Show Top 10 Customers by Predicted CLV". *)
Definition top_customers (rfm_df : DataFrame) : result DataFrame :=
  sorted <- sort_values_descending rfm_df "predicted_clv_12_months" ;;
  Ok (head 10 sorted).

(** A second stand-in for the library: like [stub_lifetimes], but its
    scorer answers only for the customers its Gamma-Gamma model was fitted
    on. *)
Definition partial_lifetimes : Lifetimes := {|
  BetaGeoFitter := Series * Series * Series;
  GammaGammaFitter := Series * Series;
  bgf_fit := fun _ frequency recency T => Ok (frequency, recency, T);
  ggf_fit := fun _ frequency monetary_value => Ok (frequency, monetary_value);
  customer_lifetime_value :=
    fun ggf _ _ _ _ _ time discount_rate =>
      Ok (map (fun x => (fst x, stub_score time discount_rate (snd x)))
              (snd ggf))
|}.

(** [example_rfm] after scoring with round numbers. *)
Definition example_scored : DataFrame :=
  mkDataFrame
    ["frequency"; "recency"; "T"; "monetary_value"; "predicted_clv_12_months"]
    [ (1%Z, [Num 2; Num 20; Num 20; Num 25; Num 280]);
      (2%Z, [Num 0; Num 0; Num 5; Num 0; Num 0]);
      (7%Z, [Num 2; Num 5; Num 9; Num 0; NaN]) ].

(** A parsed cdnow.csv as it is before the rename of line 16. *)
Definition example_csv : DataFrame :=
  mkDataFrame ["customer_id"; "date"; "quantity"; "price"]
    [ (0%Z, [customer 1; day 0; Num 1; usd 10]);
      (1%Z, [customer 2; day 15; Num 2; usd 5]) ].

(** * Properties *)

(** ** Comparisons *)

Lemma Qgtb_lt (a b : Q) : Qgtb a b = true <-> b < a.
Proof.
  unfold Qgtb. rewrite negb_true_iff.
  split; intro H.
  - apply Qnot_le_lt. intro Hle. apply Qle_bool_iff in Hle. congruence.
  - destruct (Qle_bool a b) eqn:E; [|reflexivity].
    apply Qle_bool_iff in E. exfalso. apply (Qlt_not_le _ _ H E).
Qed.

Lemma Qgtb_le (a b : Q) : Qgtb a b = false <-> a <= b.
Proof.
  unfold Qgtb. rewrite negb_false_iff. apply Qle_bool_iff.
Qed.

(** ** Frames *)

Lemma getitem_position (df : DataFrame) (name : string) (j : nat) :
  position name (df_columns df) = Some j ->
  getitem df name = Ok (map (row_cell j) (df_rows df)).
Proof. unfold getitem. intros ->. reflexivity. Qed.

Lemma getitem_missing (df : DataFrame) (name : string) :
  position name (df_columns df) = None ->
  getitem df name = Raise (KeyError name).
Proof. unfold getitem. intros ->. reflexivity. Qed.

Lemma column_index (j : nat) (rows : list (Z * list cell)) :
  s_index (map (row_cell j) rows) = map fst rows.
Proof.
  unfold s_index. rewrite map_map. apply map_ext. reflexivity.
Qed.

Lemma filter_nothing {A : Type} (f : A -> bool) (l : list A) :
  (forall x, In x l -> f x = false) -> filter f l = [].
Proof.
  induction l as [|x l IH]; simpl; intro H; [reflexivity|].
  rewrite (H x (or_introl eq_refl)). apply IH.
  intros y Hy. apply H. now right.
Qed.

Lemma filter_twice {A : Type} (f : A -> bool) (l : list A) :
  filter f (filter f l) = filter f l.
Proof.
  induction l as [|x l IH]; simpl; [reflexivity|].
  destruct (f x) eqn:E; simpl; [rewrite E|]; now rewrite IH.
Qed.

(** ** Positions of columns and cells *)

Lemma position_lt (name : string) (cols : list string) (j : nat) :
  position name cols = Some j -> (j < List.length cols)%nat.
Proof.
  revert j. induction cols as [|c cs IH]; simpl; intros j H; [discriminate|].
  destruct (String.eqb c name).
  - injection H as <-. lia.
  - destruct (position name cs) as [k|]; [|discriminate].
    injection H as <-. specialize (IH k eq_refl). lia.
Qed.

Lemma position_nth (name : string) (cols : list string) (j : nat) :
  position name cols = Some j -> nth j cols "" = name.
Proof.
  revert j. induction cols as [|c cs IH]; simpl; intros j H; [discriminate|].
  destruct (String.eqb_spec c name) as [-> | Hc].
  - injection H as <-. reflexivity.
  - destruct (position name cs) as [k|]; [|discriminate].
    injection H as <-. now apply IH.
Qed.

Lemma position_app_new (name : string) (cols : list string) :
  position name cols = None ->
  position name (cols ++ [name]) = Some (List.length cols).
Proof.
  induction cols as [|c cs IH]; simpl.
  - intros _. now rewrite String.eqb_refl.
  - destruct (String.eqb c name); [discriminate|].
    destruct (position name cs); [discriminate|].
    intros _. now rewrite IH.
Qed.

Lemma position_app_other (name other : string) (cols : list string) :
  other <> name ->
  position other (cols ++ [name]) = position other cols.
Proof.
  intro Hne. induction cols as [|c cs IH]; simpl.
  - destruct (String.eqb_spec name other); [congruence | reflexivity].
  - now rewrite IH.
Qed.

Lemma replace_nth_length (j : nat) (v : cell) (cs : list cell) :
  (j < List.length cs)%nat ->
  List.length (replace_nth j v cs) = List.length cs.
Proof.
  revert j. induction cs as [|c cs IH]; intros j Hj; simpl in Hj; [lia|].
  destruct j as [|j]; simpl; [reflexivity|].
  rewrite IH; [reflexivity | lia].
Qed.

Lemma nth_replace_nth_same (j : nat) (v : cell) (cs : list cell) :
  (j < List.length cs)%nat -> nth j (replace_nth j v cs) NaN = v.
Proof.
  revert j. induction cs as [|c cs IH]; intros j Hj; simpl in Hj; [lia|].
  destruct j as [|j]; simpl; [reflexivity|].
  apply IH. lia.
Qed.

Lemma nth_replace_nth_other (j k : nat) (v : cell) (cs : list cell) :
  (j < List.length cs)%nat -> j <> k ->
  nth k (replace_nth j v cs) NaN = nth k cs NaN.
Proof.
  revert j k. induction cs as [|c cs IH]; intros j k Hj Hjk; simpl in Hj; [lia|].
  destruct j as [|j], k as [|k]; simpl; try reflexivity; try lia.
  apply IH; lia.
Qed.

(** ** Writing a column *)

Section WriteColumn.

Variables (df : DataFrame) (name : string).

Lemma columns_with_position :
  exists j, position name (columns_with name df) = Some j
            /\ forall v cs,
                 List.length cs = List.length (df_columns df) ->
                 nth j (put_cell (position name (df_columns df)) v cs) NaN = v.
Proof.
  unfold columns_with, put_cell.
  destruct (position name (df_columns df)) as [j|] eqn:Hpos.
  - exists j. split; [exact Hpos|]. intros v cs Hlen.
    apply nth_replace_nth_same. rewrite Hlen. eapply position_lt; eassumption.
  - exists (List.length (df_columns df)). split; [now apply position_app_new|].
    intros v cs Hlen. rewrite <- Hlen, app_nth2 by lia.
    now rewrite Nat.sub_diag.
Qed.

Lemma columns_with_other (other : string) :
  other <> name ->
  position other (columns_with name df) = position other (df_columns df)
  /\ forall k v cs,
       position other (df_columns df) = Some k ->
       List.length cs = List.length (df_columns df) ->
       nth k (put_cell (position name (df_columns df)) v cs) NaN = nth k cs NaN.
Proof.
  intro Hne. unfold columns_with, put_cell.
  destruct (position name (df_columns df)) as [j|] eqn:Hpos.
  - split; [reflexivity|]. intros k v cs Hk Hlen.
    apply nth_replace_nth_other.
    + rewrite Hlen. eapply position_lt; eassumption.
    + intros ->. apply position_nth in Hpos. apply position_nth in Hk.
      congruence.
  - split; [now apply position_app_other|]. intros k v cs Hk Hlen.
    apply app_nth1. rewrite Hlen. eapply position_lt; eassumption.
Qed.

Lemma put_cell_length (v : cell) (cs : list cell) :
  List.length cs = List.length (df_columns df) ->
  List.length (put_cell (position name (df_columns df)) v cs)
  = List.length (columns_with name df).
Proof.
  intro Hlen. unfold columns_with, put_cell.
  destruct (position name (df_columns df)) as [j|] eqn:Hpos.
  - rewrite replace_nth_length; [assumption|].
    rewrite Hlen. eapply position_lt; eassumption.
  - rewrite !length_app. simpl. now rewrite Hlen.
Qed.

Lemma assign_positional_index (rows : list (Z * list cell)) (values : list cell) :
  List.length values = List.length rows ->
  df_index (assign_positional df name rows values) = map fst rows.
Proof.
  unfold df_index, assign_positional. simpl. rewrite map_map. simpl.
  revert values. induction rows as [|r rows IH]; intros [|v values] Hlen;
    simpl in *; try discriminate; [reflexivity|].
  f_equal. apply IH. lia.
Qed.

Lemma assign_positional_well_formed
    (rows : list (Z * list cell)) (values : list cell) :
  rectangular df rows -> well_formed (assign_positional df name rows values).
Proof.
  unfold rectangular, well_formed, assign_positional. simpl.
  intro Hrect. revert values.
  induction Hrect as [|r rows Hr Hrect IH]; intros [|v values]; simpl;
    try constructor.
  - simpl. now apply put_cell_length.
  - apply IH.
Qed.

Lemma getitem_assign_positional_same
    (rows : list (Z * list cell)) (values : list cell) :
  rectangular df rows ->
  getitem (assign_positional df name rows values) name
  = Ok (combine (map fst rows) values).
Proof.
  intro Hrect. unfold getitem, assign_positional. simpl.
  destruct columns_with_position as [j [-> Hcell]]. apply f_equal.
  revert values.
  induction Hrect as [|r rows Hr Hrect IH]; intros [|v values]; simpl;
    try reflexivity.
  unfold row_cell at 1. simpl. rewrite (Hcell _ _ Hr). f_equal. apply IH.
Qed.

Lemma getitem_assign_positional_other
    (other : string) (rows : list (Z * list cell)) (values : list cell) :
  other <> name -> rectangular df rows ->
  List.length values = List.length rows ->
  getitem (assign_positional df name rows values) other
  = match position other (df_columns df) with
    | Some k => Ok (map (row_cell k) rows)
    | None => Raise (KeyError other)
    end.
Proof.
  intros Hne Hrect Hlen. unfold getitem, assign_positional. simpl.
  destruct (columns_with_other other Hne) as [-> Hcell].
  destruct (position other (df_columns df)) as [k|] eqn:Hk; [|reflexivity].
  apply f_equal. revert values Hlen.
  induction Hrect as [|r rows Hr Hrect IH]; intros [|v values] Hlen;
    simpl in *; try discriminate; [reflexivity|].
  unfold row_cell at 1 3. simpl. rewrite (Hcell _ _ _ eq_refl Hr).
  f_equal. apply IH. lia.
Qed.

Lemma assign_aligned_positional (s : Series) :
  assign_aligned df name s
  = assign_positional df name (df_rows df)
      (map (fun r => lookup_label (fst r) s) (df_rows df)).
Proof.
  unfold assign_aligned, assign_positional. f_equal.
  induction (df_rows df) as [|r rows IH]; simpl; [reflexivity|].
  now rewrite IH.
Qed.

End WriteColumn.

Lemma index_equal_eq (a b : list Z) : index_equal a b = true <-> a = b.
Proof.
  revert b. induction a as [|x a IH]; intros [|y b]; simpl;
    try (split; [discriminate | congruence]); [tauto|].
  rewrite andb_true_iff, Z.eqb_eq, IH. split.
  - intros [-> ->]. reflexivity.
  - intro E. injection E as -> ->. tauto.
Qed.

Lemma has_duplicates_NoDup (l : list Z) :
  has_duplicates l = false <-> NoDup l.
Proof.
  induction l as [|x l IH]; simpl.
  - split; [constructor | reflexivity].
  - rewrite orb_false_iff, IH. split.
    + intros [Hx Hl]. constructor; [|assumption].
      intro Hin. assert (E : existsb (Z.eqb x) l = true).
      { apply existsb_exists. exists x. split; [assumption | apply Z.eqb_refl]. }
      congruence.
    + intro Hnd. inversion Hnd as [|? ? Hnotin Hnd']; subst.
      split; [|assumption].
      destruct (existsb (Z.eqb x) l) eqn:E; [|reflexivity].
      apply existsb_exists in E. destruct E as [y [Hy Hxy]].
      apply Z.eqb_eq in Hxy. subst. contradiction.
Qed.

Lemma lookup_label_unique (s : Series) (l : Z) (v : cell) :
  NoDup (s_index s) -> In (l, v) s -> lookup_label l s = v.
Proof.
  unfold s_index. induction s as [|[l' v'] s IH]; simpl; intros Hnd Hin;
    [contradiction|].
  inversion Hnd as [|? ? Hnotin Hnd']; subst.
  destruct Hin as [E | Hin].
  - injection E as -> ->. now rewrite Z.eqb_refl.
  - destruct (Z.eqb_spec l' l) as [-> | _]; [|now apply IH].
    exfalso. apply Hnotin. change l with (fst (l, v)). now apply in_map.
Qed.

Lemma lookup_label_aligned (s : Series) :
  NoDup (s_index s) ->
  map (fun l => (l, lookup_label l s)) (s_index s) = s.
Proof.
  unfold s_index. induction s as [|[l v] s IH]; simpl; intro Hnd;
    [reflexivity|].
  inversion Hnd as [|? ? Hnotin Hnd']; subst.
  rewrite Z.eqb_refl. f_equal.
  rewrite <- (IH Hnd') at 2.
  apply map_ext_in. intros l' Hl'.
  destruct (Z.eqb_spec l l') as [-> | _]; [contradiction | reflexivity].
Qed.

Lemma series_combine (s : Series) : combine (s_index s) (s_values s) = s.
Proof.
  unfold s_index, s_values. induction s as [|[l v] s IH]; simpl;
    [reflexivity | now rewrite IH].
Qed.

Lemma series_lengths (s : Series) :
  List.length (s_values s) = List.length (s_index s).
Proof. unfold s_index, s_values. now rewrite !length_map. Qed.

(** ** The column assignment of line 78 *)

Section SetItem.

Variables (df : DataFrame) (name : string) (s : Series).

Lemma fresh_rows_rectangular :
  rectangular df
    (map (fun x : Z * cell =>
            (fst x, repeat NaN (List.length (df_columns df)))) s).
Proof.
  unfold rectangular. apply Forall_forall. intros r Hr.
  apply in_map_iff in Hr. destruct Hr as [x [<- _]]. simpl.
  apply repeat_length.
Qed.

Lemma setitem_assignable :
  if assignable df s
  then exists out, setitem df name s = Ok out
  else setitem df name s = Raise ValueError.
Proof.
  unfold assignable, setitem.
  destruct (df_rows df) as [|r rows]; [eexists; reflexivity|].
  destruct (index_equal (s_index s) (df_index df)); simpl;
    [eexists; reflexivity|].
  destruct (has_duplicates (s_index s)); simpl;
    [reflexivity | eexists; reflexivity].
Qed.

Lemma setitem_index (out : DataFrame) :
  setitem df name s = Ok out ->
  df_index out = match df_rows df with
                 | [] => s_index s
                 | _ :: _ => df_index df
                 end.
Proof.
  unfold setitem.
  destruct (df_rows df) as [|r rows] eqn:Hrows.
  - intro H. injection H as <-.
    rewrite assign_positional_index.
    + rewrite map_map. reflexivity.
    + rewrite length_map. unfold s_values. now rewrite length_map.
  - destruct (index_equal (s_index s) (df_index df)) eqn:Heq.
    + intro H. injection H as <-. apply index_equal_eq in Heq.
      rewrite assign_positional_index; [unfold df_index; now rewrite Hrows|].
      rewrite series_lengths, Heq. unfold df_index.
      rewrite length_map. now rewrite Hrows.
    + destruct (has_duplicates (s_index s)); [discriminate|].
      intro H. injection H as <-. rewrite assign_aligned_positional.
      rewrite assign_positional_index by now rewrite length_map.
      unfold df_index. now rewrite Hrows.
Qed.

Lemma setitem_position (out : DataFrame) :
  setitem df name s = Ok out ->
  exists j, position name (df_columns out) = Some j.
Proof.
  destruct (columns_with_position df name) as [j [Hj _]].
  unfold setitem.
  destruct (df_rows df) as [|r rows].
  - intro H. injection H as <-. now exists j.
  - destruct (index_equal (s_index s) (df_index df)).
    + intro H. injection H as <-. now exists j.
    + destruct (has_duplicates (s_index s)); [discriminate|].
      intro H. injection H as <-. now exists j.
Qed.

Lemma setitem_well_formed (out : DataFrame) :
  well_formed df -> setitem df name s = Ok out -> well_formed out.
Proof.
  intro Hwf. unfold setitem.
  destruct (df_rows df) as [|r rows] eqn:Hrows.
  - intro H. injection H as <-.
    apply assign_positional_well_formed, fresh_rows_rectangular.
  - rewrite <- Hrows. destruct (index_equal (s_index s) (df_index df)).
    + intro H. injection H as <-.
      apply assign_positional_well_formed. exact Hwf.
    + destruct (has_duplicates (s_index s)); [discriminate|].
      intro H. injection H as <-. rewrite assign_aligned_positional.
      apply assign_positional_well_formed. exact Hwf.
Qed.

(** With at least one row in the frame every other column reads as
    before. *)
Lemma getitem_setitem_other (out : DataFrame) (other : string) :
  well_formed df -> df_rows df <> [] ->
  setitem df name s = Ok out -> other <> name ->
  getitem out other = getitem df other.
Proof.
  intros Hwf Hne Hset Hother. unfold setitem in Hset.
  destruct (df_rows df) as [|r rows] eqn:Hrows; [congruence|].
  rewrite <- Hrows in Hset.
  destruct (index_equal (s_index s) (df_index df)) eqn:Heq.
  - injection Hset as <-. apply index_equal_eq in Heq.
    rewrite getitem_assign_positional_other;
      [reflexivity | assumption | exact Hwf |].
    rewrite series_lengths, Heq. unfold df_index. now rewrite length_map.
  - destruct (has_duplicates (s_index s)); [discriminate|].
    injection Hset as <-. rewrite assign_aligned_positional.
    rewrite getitem_assign_positional_other;
      [reflexivity | assumption | exact Hwf |].
    now rewrite length_map.
Qed.

(** In a frame without rows the other columns read NaN under the labels of
    the Series. *)
Lemma getitem_setitem_other_empty (out : DataFrame) (other : string) :
  df_rows df = [] -> setitem df name s = Ok out -> other <> name ->
  getitem out other
  = match position other (df_columns df) with
    | Some _ => Ok (map (fun x => (fst x, NaN)) s)
    | None => Raise (KeyError other)
    end.
Proof.
  intros Hrows Hset Hother. unfold setitem in Hset. rewrite Hrows in Hset.
  injection Hset as <-.
  rewrite getitem_assign_positional_other;
    [| assumption | apply fresh_rows_rectangular
     | rewrite length_map; unfold s_values; now rewrite length_map].
  destruct (position other (df_columns df)) as [k|] eqn:Hk; [|reflexivity].
  apply f_equal. rewrite map_map. apply map_ext. intro x.
  unfold row_cell. simpl. f_equal.
  apply nth_repeat_lt. eapply position_lt; eassumption.
Qed.

(** A Series under the very index of the frame is read back as it was
    assigned. *)
Lemma getitem_setitem_same_index :
  well_formed df -> s_index s = df_index df ->
  exists out, setitem df name s = Ok out /\ getitem out name = Ok s.
Proof.
  intros Hwf Hidx. unfold setitem.
  destruct (df_rows df) as [|r rows] eqn:Hrows.
  - assert (Hs : s = []).
    { unfold df_index in Hidx. rewrite Hrows in Hidx.
      destruct s; [reflexivity | discriminate]. }
    eexists. split; [reflexivity|].
    rewrite getitem_assign_positional_same by apply fresh_rows_rectangular.
    now rewrite Hs.
  - rewrite <- Hrows.
    assert (Heq : index_equal (s_index s) (df_index df) = true)
      by now apply index_equal_eq.
    rewrite Heq. eexists. split; [reflexivity|].
    rewrite getitem_assign_positional_same by exact Hwf.
    fold (df_index df). rewrite <- Hidx. now rewrite series_combine.
Qed.

(** A Series without repeated labels is always assigned, and in a frame
    with rows it lands as the label-aligned assignment puts it. *)
Lemma setitem_unique_labels :
  df_rows df <> [] -> NoDup (s_index s) ->
  setitem df name s = Ok (assign_aligned df name s).
Proof.
  intros Hne Hnd. unfold setitem.
  destruct (df_rows df) as [|r rows] eqn:Hrows; [congruence|].
  apply has_duplicates_NoDup in Hnd as Hdup. rewrite Hdup.
  destruct (index_equal (s_index s) (df_index df)) eqn:Heq; [|reflexivity].
  apply index_equal_eq in Heq. f_equal.
  rewrite assign_aligned_positional, <- Hrows. f_equal.
  unfold df_index in Heq.
  rewrite <- (map_map fst (fun l => lookup_label l s)), <- Heq.
  pose proof (lookup_label_aligned s Hnd) as Hal.
  apply (f_equal (map snd)) in Hal. rewrite map_map in Hal. simpl in Hal.
  unfold s_values. now rewrite Hal.
Qed.

End SetItem.

(** ** Looking a customer up by label *)

Lemma loc_unique (df : DataFrame) (r : Z * list cell) :
  NoDup (df_index df) -> In r (df_rows df) ->
  loc df (fst r) = Ok (OneRow (snd r)).
Proof.
  unfold loc, df_index. induction (df_rows df) as [|r0 rs IH]; simpl;
    intros Hnd Hin; [contradiction|].
  inversion Hnd as [|? ? Hnotin Hnd']; subst.
  destruct Hin as [-> | Hin].
  - rewrite Z.eqb_refl.
    rewrite filter_nothing; [reflexivity|].
    intros x Hx. apply Z.eqb_neq. intro E. apply Hnotin.
    rewrite <- E. now apply in_map.
  - destruct (Z.eqb_spec (fst r0) (fst r)) as [E | _].
    + exfalso. apply Hnotin. rewrite E. now apply in_map.
    + now apply IH.
Qed.

Lemma loc_missing (df : DataFrame) (label : Z) :
  ~ In label (df_index df) -> loc df label = Raise (LabelKeyError label).
Proof.
  intro Hnotin. unfold loc. rewrite filter_nothing; [reflexivity|].
  intros r Hr. apply Z.eqb_neq. intros <-. apply Hnotin.
  unfold df_index. now apply in_map.
Qed.

(** The lookup and the four metrics go through for a customer whose row is
    the only one under its label and whose frequency and recency are
    numbers; what is shown is then the recommendation for that row's
    predicted value against the 0.8 and 0.4 quantiles of the whole
    predicted column. *)
Lemma segment_of_selected_recommendation
    (rfm_df : DataFrame) (jp jf jr jm : nat) (customer_id_int : Z)
    (row : list cell) (f r : Q) :
  position "predicted_clv_12_months" (df_columns rfm_df) = Some jp ->
  position "frequency" (df_columns rfm_df) = Some jf ->
  position "recency" (df_columns rfm_df) = Some jr ->
  position "monetary_value" (df_columns rfm_df) = Some jm ->
  loc rfm_df customer_id_int = Ok (OneRow row) ->
  nth jf row NaN = Num f -> nth jr row NaN = Num r ->
  segment_of_selected rfm_df customer_id_int
  = Ok (recommendation (nth jp row NaN)
          (series_quantile (map (row_cell jp) (df_rows rfm_df)) (4 # 5))
          (series_quantile (map (row_cell jp) (df_rows rfm_df)) (2 # 5))).
Proof.
  intros Hp Hf Hr Hm Hloc Hfreq Hrec.
  unfold segment_of_selected, strategic_recommendation, located_getitem.
  rewrite Hloc. simpl. rewrite Hp, Hf, Hr, Hm. simpl.
  rewrite Hfreq, Hrec. simpl.
  rewrite (getitem_position _ _ _ Hp). reflexivity.
Qed.

Lemma loc_one_row_In
    (df : DataFrame) (label : Z) (row : list cell) :
  loc df label = Ok (OneRow row) -> In (label, row) (df_rows df).
Proof.
  unfold loc.
  destruct (filter (fun r => (fst r =? label)%Z) (df_rows df))
    as [|r [|r' rs]] eqn:E; try discriminate.
  intro H. injection H as <-.
  assert (Hr : In r (filter (fun r => (fst r =? label)%Z) (df_rows df)))
    by (rewrite E; now left).
  apply filter_In in Hr. destruct Hr as [Hr Hl].
  apply Z.eqb_eq in Hl. subst. now destruct r.
Qed.
(** ** The maximum of a column *)

Lemma cell_max_upper (a b : cell) (t : Q) :
  a = Num t \/ (exists m, b = Num m /\ t <= m) ->
  exists m, cell_max a b = Num m /\ t <= m.
Proof.
  intros [-> | [m [-> Hm]]].
  - destruct b as [|y]; simpl.
    + exists t. split; [reflexivity | apply Qle_refl].
    + destruct (Qle_bool t y) eqn:E.
      * exists y. split; [reflexivity | now apply Qle_bool_iff].
      * exists t. split; [reflexivity | apply Qle_refl].
  - destruct a as [|x]; simpl.
    + exists m. split; [reflexivity | assumption].
    + destruct (Qle_bool x m) eqn:E.
      * exists m. split; [reflexivity | assumption].
      * exists x. split; [reflexivity|].
        assert (Hlt : m < x).
        { apply Qgtb_lt. unfold Qgtb. now rewrite E. }
        apply Qlt_le_weak in Hlt. eapply Qle_trans; eassumption.
Qed.

Lemma series_max_upper (s : Series) (l : Z) (t : Q) :
  In (l, Num t) s -> exists m, series_max s = Num m /\ t <= m.
Proof.
  unfold series_max, s_values.
  induction s as [|[l' v] s IH]; simpl; [contradiction|].
  intros [E | Hin]; apply cell_max_upper.
  - left. congruence.
  - right. apply IH. assumption.
Qed.

Lemma series_max_attained (s : Series) (m : Q) :
  series_max s = Num m -> exists l, In (l, Num m) s.
Proof.
  unfold series_max, s_values.
  induction s as [|[l' v] s IH]; simpl; [discriminate|].
  destruct v as [|x]; simpl.
  - intro H. destruct (IH H) as [l Hl]. exists l. now right.
  - destruct (fold_right cell_max NaN (map snd s)) as [|y] eqn:E.
    + intro H. exists l'. left. congruence.
    + destruct (Qle_bool x y).
      * intro H. destruct (IH H) as [l Hl]. exists l. now right.
      * intro H. exists l'. left. congruence.
Qed.

(** ** Data preparation *)

Lemma aggregator_is_unbound :
  lookup_global app_globals "summary_data_from_transaction_data"
  = Raise (NameError "summary_data_from_transaction_data").
Proof. reflexivity. Qed.

Lemma prepare_lifetimes_data_unbound (df : DataFrame) :
  prepare_lifetimes_data app_globals df
  = if has_column "date" df
    then Raise (NameError "summary_data_from_transaction_data")
    else Raise (KeyError "date").
Proof.
  unfold prepare_lifetimes_data, observation_period_end, has_column, getitem.
  destruct (position "date" (df_columns df)); reflexivity.
Qed.

(** C9, as stated, fails on a frame without a [date] column: line 28 raises
    KeyError before the unbound name of line 29 is ever looked up. *)
Lemma prepare_lifetimes_data_key_error_first :
  prepare_lifetimes_data app_globals store_indexed_by_date
  <> Raise (NameError "summary_data_from_transaction_data").
Proof. vm_compute. discriminate. Qed.

(** C9 (amended): with the globals app.py really has, prepare_lifetimes_data
    raises NameError for [summary_data_from_transaction_data] on every frame
    that has a [date] column and KeyError for [date] on every other frame;
    on no frame does it return a summary. *)
Theorem prepare_lifetimes_data_never_returns (df : DataFrame) :
  prepare_lifetimes_data app_globals df
  = (if has_column "date" df
     then Raise (NameError "summary_data_from_transaction_data")
     else Raise (KeyError "date"))
  /\ is_ok (prepare_lifetimes_data app_globals df) = false.
Proof.
  rewrite prepare_lifetimes_data_unbound.
  split; [reflexivity|].
  destruct (has_column "date" df); reflexivity.
Qed.

(** C1 (the code at the failing input): on the store of the spec's worked
    example the aggregation step raises NameError instead of producing the
    summaries frequency=2, recency=20, T=20, monetary_value=25 for A and
    0, 0, 5, 0 for B. *)
Theorem prepare_lifetimes_data_example_store :
  prepare_lifetimes_data app_globals example_store
  = Raise (NameError "summary_data_from_transaction_data").
Proof. reflexivity. Qed.

(** C4 (the code at the failing input): whatever library is installed and
    whatever the analyst selects, a run of the script on a store with a
    single purchase stops with NameError, so the store's one customer gets
    no summary at all. *)
Theorem main_single_purchase_store
    (L : Lifetimes) (selectbox : list Z -> option Z) :
  fst (main app_globals (Ok single_purchase_store) selectbox None)
  = Raise (NameError "summary_data_from_transaction_data").
Proof. reflexivity. Qed.

(** C5: the observation-period end that line 28 computes, and that the
    aggregator receives whenever its name is bound, is the maximum of the
    [date] column over all rows of the store, whichever customer a row
    belongs to: no row has a later date, and some row has exactly that
    date. *)
Theorem observation_period_end_is_store_maximum
    (df : DataFrame) (j : nat)
    (Hdate : position "date" (df_columns df) = Some j) :
  exists end_of_observation : cell,
    observation_period_end df = Ok end_of_observation
    /\ (forall (g : globals) (f : aggregator),
          lookup_global g "summary_data_from_transaction_data"
          = Ok (PyAggregator f) ->
          prepare_lifetimes_data g df
          = f df "customer_id" "date" "monetary_value" end_of_observation)
    /\ (forall (r : Z * list cell) (t : Q),
          In r (df_rows df) -> nth j (snd r) NaN = Num t ->
          exists m, end_of_observation = Num m /\ t <= m)
    /\ (forall m : Q,
          end_of_observation = Num m ->
          exists r, In r (df_rows df) /\ nth j (snd r) NaN = Num m).
Proof.
  exists (series_max (map (row_cell j) (df_rows df))).
  assert (Hope : observation_period_end df
                 = Ok (series_max (map (row_cell j) (df_rows df)))).
  { unfold observation_period_end. now rewrite (getitem_position _ _ _ Hdate). }
  split; [exact Hope|]. split; [|split].
  - intros g f Hg. unfold prepare_lifetimes_data.
    rewrite Hope. simpl. rewrite Hg. reflexivity.
  - intros r t Hr Ht.
    apply (series_max_upper _ (fst r)).
    apply in_map_iff. exists r. split; [|assumption].
    unfold row_cell. now rewrite Ht.
  - intros m Hm. destruct (series_max_attained _ _ Hm) as [l Hl].
    apply in_map_iff in Hl. destruct Hl as [r [Hr Hin]].
    exists r. split; [assumption|].
    unfold row_cell in Hr. congruence.
Qed.

(** On the store of the spec's example the end of observation is day 20,
    the last purchase of customer 1, also for customer 2 whose own last
    purchase is on day 15. *)
Lemma observation_period_end_is_store_maximum_witness :
  exists end_of_observation : cell,
    observation_period_end example_store = Ok end_of_observation
    /\ prepare_lifetimes_data patched_globals example_store
       = constant_aggregator example_store "customer_id" "date"
           "monetary_value" end_of_observation
    /\ (exists m, end_of_observation = Num m /\ inject_Z 15 <= m).
Proof.
  destruct (observation_period_end_is_store_maximum example_store 1 eq_refl)
    as [e [Hope [Hcall [Hupper _]]]].
  exists e. split; [exact Hope|]. split.
  - apply Hcall. reflexivity.
  - apply (Hupper (3%Z, [customer 2; day 15; usd 5])).
    + simpl. tauto.
    + reflexivity.
Defined.

(** ** Model training *)

Section Training.

Context {L : Lifetimes}.

Lemma row_positive_iff (jf jm : nat) (r : Z * list cell) :
  row_positive jf jm r = true <->
  exists f m : Q,
    nth jf (snd r) NaN = Num f /\ nth jm (snd r) NaN = Num m
    /\ 0 < f /\ 0 < m.
Proof.
  unfold row_positive. rewrite andb_true_iff. split.
  - intros [Hf Hm].
    destruct (nth jf (snd r) NaN) as [|f]; [discriminate|].
    destruct (nth jm (snd r) NaN) as [|m]; [discriminate|].
    exists f, m. simpl in Hf, Hm.
    repeat split; try reflexivity; now apply Qgtb_lt.
  - intros [f [m [-> [-> [Hf Hm]]]]]. simpl.
    split; now apply Qgtb_lt.
Qed.

Lemma query_position (df : DataFrame) (jf jm : nat) :
  position "frequency" (df_columns df) = Some jf ->
  position "monetary_value" (df_columns df) = Some jm ->
  query_frequency_and_monetary_value df
  = Ok (mkDataFrame (df_columns df) (filter (row_positive jf jm) (df_rows df))).
Proof.
  unfold query_frequency_and_monetary_value. intros -> ->. reflexivity.
Qed.

(** What line 47 hands to the Gamma-Gamma fitter, once the BG/NBD fit of
    line 45 has gone through. *)
Lemma train_clv_models_fit_input
    (summary_df : DataFrame) (jf jm : nat) (recency T : Series)
    (bgf : BetaGeoFitter) :
  position "frequency" (df_columns summary_df) = Some jf ->
  position "monetary_value" (df_columns summary_df) = Some jm ->
  getitem summary_df "recency" = Ok recency ->
  getitem summary_df "T" = Ok T ->
  bgf_fit 0 (map (row_cell jf) (df_rows summary_df)) recency T = Ok bgf ->
  train_clv_models summary_df
  = (ggf <- ggf_fit 0
       (map (row_cell jf) (filter (row_positive jf jm) (df_rows summary_df)))
       (map (row_cell jm) (filter (row_positive jf jm) (df_rows summary_df))) ;;
     Ok (bgf, ggf)).
Proof.
  intros Hf Hm Hr HT Hbgf. unfold train_clv_models.
  rewrite (query_position _ _ _ Hf Hm). simpl.
  rewrite (getitem_position _ _ _ Hf). simpl.
  rewrite Hr. simpl. rewrite HT. simpl. rewrite Hbgf. simpl.
  unfold getitem. simpl. rewrite Hf, Hm. reflexivity.
Qed.

(** C2 (amended): the Series handed to the monetary-model fit are the
    frequency and monetary_value columns of exactly the rows of the summary
    with frequency > 0 and monetary_value > 0.  So every customer with
    frequency = 0 is left out, and a customer with frequency > 0 is in the
    fit if and only if the monetary value is positive too. *)
Theorem monetary_fit_input_is_positive_rows
    (summary_df : DataFrame) (jf jm : nat) (recency T : Series)
    (bgf : BetaGeoFitter)
    (Hf : position "frequency" (df_columns summary_df) = Some jf)
    (Hm : position "monetary_value" (df_columns summary_df) = Some jm)
    (Hr : getitem summary_df "recency" = Ok recency)
    (HT : getitem summary_df "T" = Ok T)
    (Hbgf : bgf_fit 0 (map (row_cell jf) (df_rows summary_df)) recency T
            = Ok bgf) :
  exists kept : list (Z * list cell),
    train_clv_models summary_df
    = (ggf <- ggf_fit 0 (map (row_cell jf) kept) (map (row_cell jm) kept) ;;
       Ok (bgf, ggf))
    /\ (forall r : Z * list cell,
          In r kept <->
          In r (df_rows summary_df)
          /\ exists f m : Q,
               nth jf (snd r) NaN = Num f /\ nth jm (snd r) NaN = Num m
               /\ 0 < f /\ 0 < m)
    /\ (forall r : Z * list cell,
          nth jf (snd r) NaN = Num 0 -> ~ In r kept).
Proof.
  exists (filter (row_positive jf jm) (df_rows summary_df)).
  split; [|split].
  - eapply train_clv_models_fit_input; eassumption.
  - intro r. rewrite filter_In, row_positive_iff. reflexivity.
  - intros r H0 Hin. apply filter_In in Hin. destruct Hin as [_ Hpos].
    apply row_positive_iff in Hpos.
    destruct Hpos as [f [m [Hf' [_ [Hlt _]]]]].
    rewrite H0 in Hf'. injection Hf' as <-.
    now apply Qlt_irrefl in Hlt.
Qed.

End Training.

(** C2, as stated, fails: customer 7 of [example_rfm] has frequency 2 > 0,
    yet the frequency Series the stand-in Gamma-Gamma fitter was fitted on
    does not hold label 7, because that customer's monetary value is 0. *)
Lemma monetary_fit_excludes_a_repeat_customer :
  ~ (forall (c : Z) (f : Q),
       In (c, Num f) (map (row_cell 0) (df_rows example_rfm)) ->
       0 < f ->
       forall bgf ggf,
         @train_clv_models stub_lifetimes example_rfm = Ok (bgf, ggf) ->
         In c (s_index (fst ggf))).
Proof.
  intro H.
  assert (Hin : In 7%Z [1%Z]).
  { refine (H 7%Z 2 _ _
              ([(1%Z, Num 2); (2%Z, Num 0); (7%Z, Num 2)],
               [(1%Z, Num 20); (2%Z, Num 0); (7%Z, Num 5)],
               [(1%Z, Num 20); (2%Z, Num 5); (7%Z, Num 9)])
              ([(1%Z, Num 2)], [(1%Z, Num 25)]) _).
    - simpl. tauto.
    - reflexivity.
    - reflexivity. }
  simpl in Hin. destruct Hin as [E | []]. discriminate.
Qed.

Lemma monetary_fit_input_is_positive_rows_witness :
  exists kept : list (Z * list cell),
    @train_clv_models stub_lifetimes example_rfm
    = Ok (([(1%Z, Num 2); (2%Z, Num 0); (7%Z, Num 2)],
           [(1%Z, Num 20); (2%Z, Num 0); (7%Z, Num 5)],
           [(1%Z, Num 20); (2%Z, Num 5); (7%Z, Num 9)]),
          (map (row_cell 0) kept, map (row_cell 3) kept))
    /\ In (1%Z, [Num 2; Num 20; Num 20; Num 25]) kept
    /\ ~ In (2%Z, [Num 0; Num 0; Num 5; Num 0]) kept.
Proof.
  destruct (@monetary_fit_input_is_positive_rows stub_lifetimes example_rfm
              0 3
              [(1%Z, Num 20); (2%Z, Num 0); (7%Z, Num 5)]
              [(1%Z, Num 20); (2%Z, Num 5); (7%Z, Num 9)]
              ([(1%Z, Num 2); (2%Z, Num 0); (7%Z, Num 2)],
               [(1%Z, Num 20); (2%Z, Num 0); (7%Z, Num 5)],
               [(1%Z, Num 20); (2%Z, Num 5); (7%Z, Num 9)])
              eq_refl eq_refl eq_refl eq_refl eq_refl)
    as [kept [Htrain [Hkept Hzero]]].
  exists kept. split; [exact Htrain|]. split.
  - apply Hkept. split.
    + simpl. tauto.
    + exists 2, 25. repeat split; reflexivity.
  - apply Hzero. reflexivity.
Defined.

(** ** CLV scoring *)

Section Scoring.

Context {L : Lifetimes}.
Variables (bgf_model : BetaGeoFitter) (ggf_model : GammaGammaFitter).

(** The call of line 69 receives the four columns whole. *)
Lemma clv_forecast_unfold (rfm_df : DataFrame) (jf jr jt jm : nat) :
  position "frequency" (df_columns rfm_df) = Some jf ->
  position "recency" (df_columns rfm_df) = Some jr ->
  position "T" (df_columns rfm_df) = Some jt ->
  position "monetary_value" (df_columns rfm_df) = Some jm ->
  clv_forecast bgf_model ggf_model rfm_df
  = (clv <- customer_lifetime_value ggf_model bgf_model
              (map (row_cell jf) (df_rows rfm_df))
              (map (row_cell jr) (df_rows rfm_df))
              (map (row_cell jt) (df_rows rfm_df))
              (map (row_cell jm) (df_rows rfm_df))
              12 (1 # 100) ;;
     setitem rfm_df "predicted_clv_12_months" clv).
Proof.
  intros Hf Hr Ht Hm. unfold clv_forecast.
  rewrite (getitem_position _ _ _ Hf), (getitem_position _ _ _ Hr),
          (getitem_position _ _ _ Ht), (getitem_position _ _ _ Hm).
  reflexivity.
Qed.

(** A scored frame is the RFM table with one Series assigned to it. *)
Lemma clv_forecast_assigned (rfm_df out : DataFrame) :
  clv_forecast bgf_model ggf_model rfm_df = Ok out ->
  exists clv, setitem rfm_df "predicted_clv_12_months" clv = Ok out.
Proof.
  unfold clv_forecast.
  destruct (getitem rfm_df "frequency"); [simpl|discriminate].
  destruct (getitem rfm_df "recency"); [simpl|discriminate].
  destruct (getitem rfm_df "T"); [simpl|discriminate].
  destruct (getitem rfm_df "monetary_value"); [simpl|discriminate].
  destruct (customer_lifetime_value _ _ _ _ _ _ _ _) as [clv|];
    [simpl|discriminate].
  intro H. now exists clv.
Qed.

Lemma clv_forecast_index (rfm_df out : DataFrame) :
  clv_forecast bgf_model ggf_model rfm_df = Ok out ->
  df_rows rfm_df <> [] ->
  df_index out = df_index rfm_df.
Proof.
  intros Hout Hne. destruct (clv_forecast_assigned _ _ Hout) as [clv Hset].
  rewrite (setitem_index _ _ _ _ Hset).
  destruct (df_rows rfm_df); [congruence | reflexivity].
Qed.

(** C7 (amended): CLV scoring makes no per-customer check and keeps no
    error or skip list.  When the library's scorer returns a Series that
    line 78 can assign (one that repeats no label, or one under the very
    index of the table), the report has exactly the customers of the RFM
    table, those with monetary_value <= 0 and frequency > 0 included (a
    table without rows takes the labels of the Series instead).  When the
    scorer raises, or when the assignment raises ValueError on a repeated
    label, the exception leaves the scoring step and the whole batch is
    lost. *)
Theorem clv_forecast_keeps_every_customer
    (rfm_df : DataFrame) (jf jr jt jm : nat)
    (Hf : position "frequency" (df_columns rfm_df) = Some jf)
    (Hr : position "recency" (df_columns rfm_df) = Some jr)
    (Ht : position "T" (df_columns rfm_df) = Some jt)
    (Hm : position "monetary_value" (df_columns rfm_df) = Some jm) :
  match customer_lifetime_value ggf_model bgf_model
          (map (row_cell jf) (df_rows rfm_df))
          (map (row_cell jr) (df_rows rfm_df))
          (map (row_cell jt) (df_rows rfm_df))
          (map (row_cell jm) (df_rows rfm_df))
          12 (1 # 100) with
  | Ok clv =>
      if assignable rfm_df clv
      then exists out : DataFrame,
             clv_forecast bgf_model ggf_model rfm_df = Ok out
             /\ df_index out = match df_rows rfm_df with
                               | [] => s_index clv
                               | _ :: _ => df_index rfm_df
                               end
      else clv_forecast bgf_model ggf_model rfm_df = Raise ValueError
  | Raise e => clv_forecast bgf_model ggf_model rfm_df = Raise e
  end.
Proof.
  rewrite (clv_forecast_unfold _ _ _ _ _ Hf Hr Ht Hm).
  destruct (customer_lifetime_value _ _ _ _ _ _ _ _) as [clv|e]; simpl.
  - pose proof (setitem_assignable rfm_df "predicted_clv_12_months" clv)
      as Hset.
    destruct (assignable rfm_df clv).
    + destruct Hset as [out Hout]. exists out. split; [exact Hout|].
      now apply (setitem_index _ _ _ _ Hout).
    + exact Hset.
  - reflexivity.
Qed.

(** C10: the scorer is called once, on the whole frequency, recency, T and
    monetary_value columns of the RFM table, with time=12 and
    discount_rate=0.01.  Every row of the table has its entry in each of
    them, in particular the rows that the query of train_clv_models dropped
    (frequency = 0 or monetary_value = 0), and the column assignment of
    line 78, whenever it goes through, leaves the customers of the table as
    they were (a table without rows takes the labels of the Series). *)
Theorem scorer_sees_every_customer
    (rfm_df : DataFrame) (jf jr jt jm : nat)
    (Hf : position "frequency" (df_columns rfm_df) = Some jf)
    (Hr : position "recency" (df_columns rfm_df) = Some jr)
    (Ht : position "T" (df_columns rfm_df) = Some jt)
    (Hm : position "monetary_value" (df_columns rfm_df) = Some jm) :
  exists frequency recency T monetary_value : Series,
    clv_forecast bgf_model ggf_model rfm_df
    = (clv <- customer_lifetime_value ggf_model bgf_model
                frequency recency T monetary_value 12 (1 # 100) ;;
       setitem rfm_df "predicted_clv_12_months" clv)
    /\ s_index frequency = df_index rfm_df
    /\ s_index recency = df_index rfm_df
    /\ s_index T = df_index rfm_df
    /\ s_index monetary_value = df_index rfm_df
    /\ (forall r : Z * list cell,
          In r (df_rows rfm_df) ->
          row_positive jf jm r = false ->
          In (fst r, nth jf (snd r) NaN) frequency
          /\ In (fst r, nth jm (snd r) NaN) monetary_value)
    /\ (forall (clv : Series) (out : DataFrame),
          setitem rfm_df "predicted_clv_12_months" clv = Ok out ->
          df_index out = match df_rows rfm_df with
                         | [] => s_index clv
                         | _ :: _ => df_index rfm_df
                         end).
Proof.
  exists (map (row_cell jf) (df_rows rfm_df)),
         (map (row_cell jr) (df_rows rfm_df)),
         (map (row_cell jt) (df_rows rfm_df)),
         (map (row_cell jm) (df_rows rfm_df)).
  split; [now apply clv_forecast_unfold|].
  repeat (split; [apply column_index|]).
  split.
  - intros r Hin _. split; apply in_map_iff; exists r; split;
      try reflexivity; assumption.
  - intros clv out. apply setitem_index.
Qed.

End Scoring.

(** C7, as stated, fails: customer 7 of [example_rfm] has frequency 2 > 0
    and monetary_value 0, and the scoring step, run with the stand-in
    library fitted on that table, returns a report that still lists
    customer 7. *)
Lemma inconsistent_customer_is_scored :
  ~ (forall (c : Z) (f m : Q),
       In (c, Num f) (map (row_cell 0) (df_rows example_rfm)) ->
       In (c, Num m) (map (row_cell 3) (df_rows example_rfm)) ->
       0 < f -> m <= 0 ->
       forall models out,
         @train_clv_models stub_lifetimes example_rfm = Ok models ->
         @clv_forecast stub_lifetimes (fst models) (snd models) example_rfm
         = Ok out ->
         ~ In c (df_index out)).
Proof.
  intro H.
  refine (H 7%Z 2 0 _ _ _ _ _ _ eq_refl eq_refl _).
  - simpl. tauto.
  - simpl. tauto.
  - reflexivity.
  - apply Qle_refl.
  - simpl. tauto.
Qed.

Lemma clv_forecast_keeps_every_customer_witness :
  exists out : DataFrame,
    @clv_forecast stub_lifetimes
       ([(1%Z, Num 2); (2%Z, Num 0); (7%Z, Num 2)],
        [(1%Z, Num 20); (2%Z, Num 0); (7%Z, Num 5)],
        [(1%Z, Num 20); (2%Z, Num 5); (7%Z, Num 9)])
       ([(1%Z, Num 2)], [(1%Z, Num 25)])
       example_rfm = Ok out
    /\ df_index out = [1%Z; 2%Z; 7%Z].
Proof.
  exact (@clv_forecast_keeps_every_customer stub_lifetimes
           ([(1%Z, Num 2); (2%Z, Num 0); (7%Z, Num 2)],
            [(1%Z, Num 20); (2%Z, Num 0); (7%Z, Num 5)],
            [(1%Z, Num 20); (2%Z, Num 5); (7%Z, Num 9)])
           ([(1%Z, Num 2)], [(1%Z, Num 25)])
           example_rfm 0 1 2 3 eq_refl eq_refl eq_refl eq_refl).
Defined.

Lemma scorer_sees_every_customer_witness :
  exists frequency recency T monetary_value : Series,
    @clv_forecast stub_lifetimes
       ([(1%Z, Num 2); (2%Z, Num 0); (7%Z, Num 2)],
        [(1%Z, Num 20); (2%Z, Num 0); (7%Z, Num 5)],
        [(1%Z, Num 20); (2%Z, Num 5); (7%Z, Num 9)])
       ([(1%Z, Num 2)], [(1%Z, Num 25)])
       example_rfm
    = (clv <- @customer_lifetime_value stub_lifetimes
                ([(1%Z, Num 2)], [(1%Z, Num 25)])
                ([(1%Z, Num 2); (2%Z, Num 0); (7%Z, Num 2)],
                 [(1%Z, Num 20); (2%Z, Num 0); (7%Z, Num 5)],
                 [(1%Z, Num 20); (2%Z, Num 5); (7%Z, Num 9)])
                frequency recency T monetary_value 12 (1 # 100) ;;
       setitem example_rfm "predicted_clv_12_months" clv)
    /\ In (2%Z, Num 0) frequency
    /\ In (2%Z, Num 0) monetary_value.
Proof.
  destruct (@scorer_sees_every_customer stub_lifetimes
              ([(1%Z, Num 2); (2%Z, Num 0); (7%Z, Num 2)],
               [(1%Z, Num 20); (2%Z, Num 0); (7%Z, Num 5)],
               [(1%Z, Num 20); (2%Z, Num 5); (7%Z, Num 9)])
              ([(1%Z, Num 2)], [(1%Z, Num 25)])
              example_rfm 0 1 2 3 eq_refl eq_refl eq_refl eq_refl)
    as [f [r [t [m [Hcall [_ [_ [_ [_ [Hrows _]]]]]]]]]].
  exists f, r, t, m. split; [exact Hcall|].
  apply (Hrows (2%Z, [Num 0; Num 0; Num 5; Num 0])).
  - simpl. tauto.
  - reflexivity.
Defined.

(** ** Quantiles *)

Lemma insert_sorted_In (x y : Q) (l : list Q) :
  In y (insert_sorted x l) -> y = x \/ In y l.
Proof.
  induction l as [|z l IH]; simpl.
  - intros [E | []]. now left.
  - destruct (Qle_bool x z).
    + intros [E | H]; [now left | now right].
    + intros [E | H].
      * right. now left.
      * destruct (IH H) as [E | Hin]; [now left | right; now right].
Qed.

Lemma insert_sorted_ascending (x : Q) (l : list Q) :
  ascending l -> ascending (insert_sorted x l).
Proof.
  induction l as [|z l IH]; simpl.
  - intros _. split; [intros y []| exact I].
  - intros [Hz Hl]. destruct (Qle_bool x z) eqn:E.
    + apply Qle_bool_iff in E. simpl. split; [|split; assumption].
      intros y [<- | Hy]; [assumption|].
      eapply Qle_trans; [exact E | now apply Hz].
    + assert (Hlt : z < x) by (apply Qgtb_lt; unfold Qgtb; now rewrite E).
      simpl. split; [|now apply IH].
      intros y Hy. destruct (insert_sorted_In _ _ _ Hy) as [-> | Hin].
      * now apply Qlt_le_weak.
      * now apply Hz.
Qed.

Lemma sort_values_ascending (l : list Q) : ascending (sort_values l).
Proof.
  induction l as [|x l IH]; simpl; [exact I|].
  now apply insert_sorted_ascending.
Qed.

Lemma insert_sorted_not_nil (x : Q) (l : list Q) : insert_sorted x l <> [].
Proof. destruct l as [|z l]; simpl; [|destruct (Qle_bool x z)]; discriminate. Qed.

Lemma ascending_nth (l : list Q) (i k : nat) :
  ascending l -> (i <= k)%nat -> (k < List.length l)%nat ->
  nth i l 0 <= nth k l 0.
Proof.
  revert i k. induction l as [|x l IH]; intros i k Hasc Hik Hk; simpl in Hk.
  - lia.
  - destruct Hasc as [Hx Hl]. destruct i as [|i], k as [|k]; simpl.
    + apply Qle_refl.
    + apply Hx. apply nth_In. lia.
    + lia.
    + apply IH; [assumption | lia | lia].
Qed.

Lemma interpolate_monotone (sorted : list Q) (p1 p2 : Q) :
  ascending sorted ->
  0 <= p1 -> p1 <= p2 ->
  p2 <= inject_Z (Z.of_nat (List.length sorted) - 1) ->
  interpolate sorted p1 <= interpolate sorted p2.
Proof.
  intros Hasc H0 H12 Hn. unfold interpolate.
  set (n := Z.of_nat (List.length sorted)) in *.
  pose proof (Qfloor_le p1) as Hf1. pose proof (Qlt_floor p1) as Hc1.
  pose proof (Qfloor_le p2) as Hf2. pose proof (Qlt_floor p2) as Hc2.
  assert (Hlo0 : (0 <= Qfloor p1)%Z).
  { change 0%Z with (Qfloor 0). now apply Qfloor_resp_le. }
  assert (Hlo12 : (Qfloor p1 <= Qfloor p2)%Z) by now apply Qfloor_resp_le.
  assert (Hlon : (Qfloor p2 <= n - 1)%Z).
  { rewrite <- (Qfloor_Z (n - 1)). now apply Qfloor_resp_le. }
  set (lo1 := Qfloor p1) in *. set (lo2 := Qfloor p2) in *.
  assert (Ha1 : nth (Z.to_nat lo1) sorted 0
                <= nth (Z.to_nat (Z.min (lo1 + 1) (n - 1))) sorted 0).
  { apply ascending_nth; [assumption | lia | lia]. }
  assert (Ha2 : nth (Z.to_nat lo2) sorted 0
                <= nth (Z.to_nat (Z.min (lo2 + 1) (n - 1))) sorted 0).
  { apply ascending_nth; [assumption | lia | lia]. }
  rewrite inject_Z_plus in Hc1, Hc2.
  change (inject_Z 1) with 1 in Hc1, Hc2.
  destruct (Z.eq_dec lo1 lo2) as [E | NE].
  - rewrite <- E in *.
    set (a := nth (Z.to_nat lo1) sorted 0) in *.
    set (b := nth (Z.to_nat (Z.min (lo1 + 1) (n - 1))) sorted 0) in *.
    nra.
  - assert (Hb1 : nth (Z.to_nat (Z.min (lo1 + 1) (n - 1))) sorted 0
                  <= nth (Z.to_nat lo2) sorted 0).
    { apply ascending_nth; [assumption | lia | lia]. }
    set (a1 := nth (Z.to_nat lo1) sorted 0) in *.
    set (b1 := nth (Z.to_nat (Z.min (lo1 + 1) (n - 1))) sorted 0) in *.
    set (a2 := nth (Z.to_nat lo2) sorted 0) in *.
    set (b2 := nth (Z.to_nat (Z.min (lo2 + 1) (n - 1))) sorted 0) in *.
    set (f1 := p1 - inject_Z lo1) in *.
    set (f2 := p2 - inject_Z lo2) in *.
    assert (Hf1' : 0 <= f1 /\ f1 <= 1) by (unfold f1; split; lra).
    assert (Hf2' : 0 <= f2 /\ f2 <= 1) by (unfold f2; split; lra).
    assert (H1 : a1 + (b1 - a1) * f1 <= b1) by nra.
    assert (H2 : a2 <= a2 + (b2 - a2) * f2) by nra.
    lra.
Qed.

Lemma dropna_In (s : Series) (l : Z) (v : Q) :
  In (l, Num v) s -> In v (dropna s).
Proof.
  intro H. unfold dropna. apply in_flat_map.
  exists (l, Num v). split; [assumption | simpl; now left].
Qed.

Lemma sort_values_not_nil (l : list Q) : l <> [] -> sort_values l <> [].
Proof.
  destruct l as [|x l]; [congruence|].
  intros _. simpl. apply insert_sorted_not_nil.
Qed.

(** With at least one number in the population both thresholds exist and
    the 40th percentile is not above the 80th. *)
Lemma thresholds_ordered (predicted : Series) (l : Z) (v : Q) :
  In (l, Num v) predicted ->
  exists high low : Q,
    series_quantile predicted (4 # 5) = Num high
    /\ series_quantile predicted (2 # 5) = Num low
    /\ low <= high.
Proof.
  intro Hin. unfold series_quantile.
  pose proof (sort_values_ascending (dropna predicted)) as Hasc.
  assert (Hne : sort_values (dropna predicted) <> []).
  { apply sort_values_not_nil. intro E.
    apply dropna_In in Hin. rewrite E in Hin. contradiction. }
  destruct (sort_values (dropna predicted)) as [|x xs]; [congruence|].
  eexists. eexists. split; [reflexivity|]. split; [reflexivity|].
  set (n := Z.of_nat (List.length (x :: xs))).
  assert (Hn : (1 <= n)%Z) by (unfold n; simpl List.length; lia).
  assert (Hq : 0 <= inject_Z n - 1).
  { assert (H1 : inject_Z 1 <= inject_Z n) by (rewrite <- Zle_Qle; lia).
    change (inject_Z 1) with 1 in H1. lra. }
  apply interpolate_monotone.
  - assumption.
  - nra.
  - nra.
  - fold n. unfold Zminus. rewrite inject_Z_plus.
    change (inject_Z (- (1))) with (- (1)). lra.
Qed.

(** ** Segmentation *)

Lemma recommendation_numbers (v high low : Q) :
  low <= high ->
  (recommendation (Num v) (Num high) (Num low) = HIGH <-> high < v)
  /\ (recommendation (Num v) (Num high) (Num low) = LOW <-> v <= low)
  /\ (recommendation (Num v) (Num high) (Num low) = MEDIUM
      <-> low < v /\ v <= high).
Proof.
  intro Hlh. unfold recommendation, cell_gt.
  destruct (Qgtb v high) eqn:Eh; [apply Qgtb_lt in Eh | apply Qgtb_le in Eh];
    (destruct (Qgtb v low) eqn:El; [apply Qgtb_lt in El | apply Qgtb_le in El]);
    repeat split; intros; try discriminate; try reflexivity;
    try assumption; try lra.
Qed.

(** What the rule makes of a value of the population, on the thresholds
    computed from the population. *)
Lemma recommendation_on_population (predicted : Series) (l : Z) (v : Q) :
  In (l, Num v) predicted ->
  exists high low : Q,
    series_quantile predicted (4 # 5) = Num high
    /\ series_quantile predicted (2 # 5) = Num low
    /\ let s := recommendation (Num v)
                  (series_quantile predicted (4 # 5))
                  (series_quantile predicted (2 # 5)) in
       (s = HIGH <-> high < v)
       /\ (s = LOW <-> v <= low)
       /\ (s = MEDIUM <-> low < v /\ v <= high)
       /\ (v == high -> s <> HIGH)
       /\ (v == low -> s = LOW).
Proof.
  intro Hin.
  destruct (thresholds_ordered predicted l v Hin) as [high [low [Hh [Hl Hle]]]].
  exists high, low. split; [exact Hh|]. split; [exact Hl|].
  rewrite Hh, Hl. cbv zeta.
  destruct (recommendation_numbers v high low Hle) as [HH [HL HM]].
  split; [exact HH|]. split; [exact HL|]. split; [exact HM|]. split.
  - intros E Hs. apply HH in Hs. lra.
  - intro E. apply HL. lra.
Qed.

(** C3: on every scored table, that is for every population of predicted
    values, the rule of lines 110-117 gives a customer of the population
    with predicted value v exactly one label s, and s is HIGH iff v > the
    80th percentile of the predicted column, LOW iff v <= its 40th
    percentile and MEDIUM iff v lies in between; a value equal to the 80th
    percentile is not HIGH and a value equal to the 40th percentile is LOW.
    That label is what the page shows for the customer when the row is the
    only one under its label and its frequency and recency are numbers. *)
Theorem segmentation_partitions_population
    (rfm_df : DataFrame) (jp : nat) (customer_id_int : Z) (v : Q)
    (Hp : position "predicted_clv_12_months" (df_columns rfm_df) = Some jp)
    (Hin : In (customer_id_int, Num v) (map (row_cell jp) (df_rows rfm_df))) :
  exists (high low : Q) (s : Segment),
    series_quantile (map (row_cell jp) (df_rows rfm_df)) (4 # 5) = Num high
    /\ series_quantile (map (row_cell jp) (df_rows rfm_df)) (2 # 5) = Num low
    /\ strategic_recommendation rfm_df (Scalar (Num v)) = Ok s
    /\ (s = HIGH <-> high < v)
    /\ (s = LOW <-> v <= low)
    /\ (s = MEDIUM <-> low < v /\ v <= high)
    /\ (v == high -> s <> HIGH)
    /\ (v == low -> s = LOW)
    /\ (forall (jf jr jm : nat) (row : list cell) (f r : Q),
          position "frequency" (df_columns rfm_df) = Some jf ->
          position "recency" (df_columns rfm_df) = Some jr ->
          position "monetary_value" (df_columns rfm_df) = Some jm ->
          loc rfm_df customer_id_int = Ok (OneRow row) ->
          nth jp row NaN = Num v ->
          nth jf row NaN = Num f -> nth jr row NaN = Num r ->
          segment_of_selected rfm_df customer_id_int = Ok s).
Proof.
  destruct (recommendation_on_population _ _ _ Hin)
    as [high [low [Hh [Hl Hs]]]].
  cbv zeta in Hs. destruct Hs as [HH [HL [HM [Hth Htl]]]].
  exists high, low,
    (recommendation (Num v)
       (series_quantile (map (row_cell jp) (df_rows rfm_df)) (4 # 5))
       (series_quantile (map (row_cell jp) (df_rows rfm_df)) (2 # 5))).
  split; [exact Hh|]. split; [exact Hl|]. split.
  { unfold strategic_recommendation.
    rewrite (getitem_position _ _ _ Hp). reflexivity. }
  split; [exact HH|]. split; [exact HL|]. split; [exact HM|].
  split; [exact Hth|]. split; [exact Htl|].
  intros jf jr jm row f r Hf Hr Hm Hloc Hv Hfreq Hrec.
  rewrite (segment_of_selected_recommendation rfm_df jp jf jr jm
             customer_id_int row f r Hp Hf Hr Hm Hloc Hfreq Hrec).
  now rewrite Hv.
Qed.

(** Customer 1 of [example_scored], worth 280 where the thresholds are 224
    and 112, is HIGH. *)
Lemma segmentation_partitions_population_witness :
  exists (high low : Q) (s : Segment),
    series_quantile (map (row_cell 4) (df_rows example_scored)) (4 # 5)
    = Num high
    /\ series_quantile (map (row_cell 4) (df_rows example_scored)) (2 # 5)
       = Num low
    /\ segment_of_selected example_scored 1 = Ok s
    /\ (s = HIGH <-> high < 280).
Proof.
  destruct (segmentation_partitions_population example_scored 4 1%Z 280
              eq_refl (or_introl eq_refl))
    as [high [low [s [Hh [Hl [_ [HH [_ [_ [_ [_ Hpage]]]]]]]]]]].
  exists high, low, s. split; [exact Hh|]. split; [exact Hl|].
  split; [|exact HH].
  apply (Hpage 0%nat 1%nat 3%nat [Num 2; Num 20; Num 20; Num 25; Num 280]
           2 20); reflexivity.
Defined.

(** ** Discounting *)

Lemma compound_positive (r : Q) (k : nat) : 0 <= r -> 0 < compound r k.
Proof.
  intro Hr. induction k as [|k IH]; simpl.
  - reflexivity.
  - nra.
Qed.

Lemma compound_monotone (r1 r2 : Q) (k : nat) :
  0 <= r1 -> r1 <= r2 -> compound r1 k <= compound r2 k.
Proof.
  intros H1 H12. induction k as [|k IH]; simpl.
  - apply Qle_refl.
  - pose proof (compound_positive r1 k H1). nra.
Qed.

Lemma discounted_term_antitone (x c1 c2 : Q) :
  0 <= x -> 0 < c1 -> c1 <= c2 -> x / c2 <= x / c1.
Proof.
  intros Hx H1 H12.
  assert (H2 : 0 < c2) by lra.
  apply Qle_shift_div_r; [assumption|].
  assert (Hq : 0 <= x / c1).
  { apply Qle_shift_div_l; [assumption | lra]. }
  assert (E : x == x / c1 * c1).
  { field. intro E. rewrite E in H1. now apply Qlt_irrefl in H1. }
  nra.
Qed.

Lemma predicted_value_antitone
    (expected_transactions : nat -> Q) (expected_value r1 r2 : Q)
    (horizon : nat) :
  (forall period, 0 <= expected_transactions period) ->
  0 <= expected_value ->
  0 <= r1 -> r1 <= r2 ->
  predicted_value expected_transactions expected_value r2 horizon
  <= predicted_value expected_transactions expected_value r1 horizon.
Proof.
  intros Het Hev H1 H12. induction horizon as [|h IH].
  - apply Qle_refl.
  - cbn [predicted_value].
    apply Qplus_le_compat; [exact IH|].
    apply discounted_term_antitone.
    + specialize (Het (S h)). nra.
    + now apply compound_positive.
    + now apply compound_monotone.
Qed.

(** C6: for every customer (frequency, recency, T, monetary value), every
    pair of fitted models whose expectations for that customer are not
    negative, and every horizon, the predicted value at discount rate 0.10
    is at most the predicted value at discount rate 0.01. *)
Theorem discount_rate_does_not_increase_value
    (expected_transactions : Q -> Q -> Q -> nat -> Q)
    (expected_value : Q -> Q -> Q)
    (frequency recency T monetary_value : Q) (horizon : nat)
    (Htransactions :
       forall period, 0 <= expected_transactions frequency recency T period)
    (Hvalue : 0 <= expected_value frequency monetary_value) :
  predicted_value (expected_transactions frequency recency T)
                  (expected_value frequency monetary_value)
                  (1 # 10) horizon
  <= predicted_value (expected_transactions frequency recency T)
                     (expected_value frequency monetary_value)
                     (1 # 100) horizon.
Proof.
  apply predicted_value_antitone; try assumption.
  - discriminate.
  - discriminate.
Qed.

(** The stand-in models of section 9 on customer 1 of [example_rfm]: one
    expected transaction per period, each worth the monetary value, over the
    script's twelve periods. *)
Lemma discount_rate_does_not_increase_value_witness :
  predicted_value (fun _ => 1) 25 (1 # 10) 12
  <= predicted_value (fun _ => 1) 25 (1 # 100) 12.
Proof.
  apply (discount_rate_does_not_increase_value
           (fun _ _ _ _ => 1) (fun _ m => m) 2 20 20 25 12).
  - intro period. discriminate.
  - discriminate.
Defined.

(** * Further properties of the script *)

(** ** The cached loader (lines 8-20) *)

(** X1: once the loader has answered, with a frame or with None, every later
    call answers the same from the cache, whatever has become of the file in
    the meantime. *)
Theorem load_local_transaction_data_reads_once
    (read_csv read_csv' : result DataFrame) (c : cache)
    (v : option DataFrame)
    (Hfirst : fst (load_local_transaction_data read_csv c) = Ok v) :
  load_local_transaction_data read_csv'
    (snd (load_local_transaction_data read_csv c))
  = (Ok v, snd (load_local_transaction_data read_csv c)).
Proof.
  unfold load_local_transaction_data in *.
  destruct c as [v0|]; simpl in *.
  - congruence.
  - destruct read_csv as [df|e]; simpl in *.
    + congruence.
    + destruct e; simpl in *; congruence.
Qed.

Lemma load_local_transaction_data_reads_once_witness :
  load_local_transaction_data (Raise FileNotFoundError)
    (snd (load_local_transaction_data (Ok example_csv) None))
  = (Ok (Some (rename_column "price" "monetary_value" example_csv)),
     snd (load_local_transaction_data (Ok example_csv) None)).
Proof.
  apply (load_local_transaction_data_reads_once
           (Ok example_csv) (Raise FileNotFoundError) None).
  reflexivity.
Defined.

(** X2: the loader raises only on a cache miss, only what read_csv itself
    raised, never FileNotFoundError, and it stores nothing then: the next
    run reads the file again. *)
Theorem load_local_transaction_data_failure
    (read_csv : result DataFrame) (c : cache) (e : exn)
    (Hraise : fst (load_local_transaction_data read_csv c) = Raise e) :
  c = None /\ read_csv = Raise e /\ e <> FileNotFoundError
  /\ snd (load_local_transaction_data read_csv c) = None.
Proof.
  unfold load_local_transaction_data in *.
  destruct c as [v0|]; simpl in *; [discriminate|].
  destruct read_csv as [df|e0]; simpl in *; [discriminate|].
  destruct e0; simpl in *; try discriminate;
    injection Hraise as <-; repeat split; discriminate.
Qed.

Lemma load_local_transaction_data_failure_witness :
  (None : cache) = None
  /\ (Raise (OtherError "ParserError") : result DataFrame)
     = Raise (OtherError "ParserError")
  /\ OtherError "ParserError" <> FileNotFoundError
  /\ snd (load_local_transaction_data (Raise (OtherError "ParserError")) None)
     = None.
Proof.
  apply (load_local_transaction_data_failure
           (Raise (OtherError "ParserError")) None (OtherError "ParserError")).
  reflexivity.
Defined.

Lemma position_rename_other (old new name : string) (cols : list string) :
  name <> old -> name <> new ->
  position name (map (fun c => if String.eqb c old then new else c) cols)
  = position name cols.
Proof.
  intros Ho Hn. induction cols as [|c cs IH]; simpl; [reflexivity|].
  rewrite IH. destruct (String.eqb_spec c old) as [-> | Hc].
  - destruct (String.eqb_spec new name); [congruence|].
    destruct (String.eqb_spec old name); [congruence|]. reflexivity.
  - reflexivity.
Qed.

Lemma position_rename_old (old new : string) (cols : list string) :
  old <> new ->
  position old (map (fun c => if String.eqb c old then new else c) cols)
  = None.
Proof.
  intro Hne. induction cols as [|c cs IH]; simpl; [reflexivity|].
  rewrite IH. destruct (String.eqb_spec c old) as [-> | Hc].
  - destruct (String.eqb_spec new old); [congruence | reflexivity].
  - destruct (String.eqb_spec c old); [congruence | reflexivity].
Qed.

Lemma position_rename_new (old new : string) (cols : list string) :
  position new cols = None ->
  position new (map (fun c => if String.eqb c old then new else c) cols)
  = position old cols.
Proof.
  induction cols as [|c cs IH]; simpl; [reflexivity|].
  destruct (String.eqb_spec c new) as [-> | Hc]; [discriminate|].
  intro Hnone.
  assert (Hcs : position new cs = None).
  { destruct (position new cs); [discriminate | reflexivity]. }
  rewrite (IH Hcs).
  destruct (String.eqb_spec c old) as [-> | Hco].
  - now rewrite String.eqb_refl.
  - destruct (String.eqb_spec c new); [congruence | reflexivity].
Qed.

(** X3: what a first, successful load hands on is the parsed frame with its
    rows untouched and its [price] column renamed: there is no [price]
    column any more, [monetary_value] now reads what [price] read (when the
    file had no [monetary_value] column of its own), and every other column
    reads as before. *)
Theorem load_local_transaction_data_renames_price (df : DataFrame) :
  exists loaded : DataFrame,
    load_local_transaction_data (Ok df) None
    = (Ok (Some loaded), Some (Some loaded))
    /\ df_rows loaded = df_rows df
    /\ getitem loaded "price" = Raise (KeyError "price")
    /\ (position "monetary_value" (df_columns df) = None ->
        getitem loaded "monetary_value"
        = match getitem df "price" with
          | Ok s => Ok s
          | Raise _ => Raise (KeyError "monetary_value")
          end)
    /\ (forall name : string,
          name <> "price" -> name <> "monetary_value" ->
          getitem loaded name = getitem df name).
Proof.
  exists (rename_column "price" "monetary_value" df).
  split; [reflexivity|]. split; [reflexivity|].
  unfold getitem, rename_column; simpl. split; [|split].
  - rewrite position_rename_old; [reflexivity | discriminate].
  - intro Hnone. rewrite (position_rename_new _ _ _ Hnone).
    destruct (position "price" (df_columns df)); reflexivity.
  - intros name Hp Hm. now rewrite position_rename_other.
Qed.

Lemma load_local_transaction_data_renames_price_witness :
  exists loaded : DataFrame,
    load_local_transaction_data (Ok example_csv) None
    = (Ok (Some loaded), Some (Some loaded))
    /\ getitem loaded "monetary_value"
       = Ok [(0%Z, usd 10); (1%Z, usd 5)]
    /\ getitem loaded "date" = getitem example_csv "date".
Proof.
  destruct (load_local_transaction_data_renames_price example_csv)
    as [loaded [Hload [_ [_ [Hmv Hother]]]]].
  exists loaded. split; [exact Hload|]. split.
  - apply Hmv. reflexivity.
  - apply Hother; discriminate.
Defined.

(** ** Data preparation (lines 23-36) *)

(** X4: prepare_lifetimes_data returns a summary only when the frame has a
    [date] column and the module globals bind the aggregator's name to a
    callable; the summary is then what that callable answered for the
    unchanged frame, the three column names of lines 31-33 and the maximum
    of the [date] column. *)
Theorem prepare_lifetimes_data_success
    (g : globals) (df summary : DataFrame)
    (Hok : prepare_lifetimes_data g df = Ok summary) :
  exists (j : nat) (f : aggregator),
    position "date" (df_columns df) = Some j
    /\ lookup_global g "summary_data_from_transaction_data"
       = Ok (PyAggregator f)
    /\ f df "customer_id" "date" "monetary_value"
         (series_max (map (row_cell j) (df_rows df)))
       = Ok summary.
Proof.
  unfold prepare_lifetimes_data, observation_period_end, getitem in Hok.
  destruct (position "date" (df_columns df)) as [j|]; [|discriminate].
  simpl in Hok.
  destruct (lookup_global g "summary_data_from_transaction_data")
    as [[|f]|e]; simpl in Hok; try discriminate.
  exists j, f. repeat split. exact Hok.
Qed.

Lemma prepare_lifetimes_data_success_witness :
  exists (j : nat) (f : aggregator),
    position "date" (df_columns example_store) = Some j
    /\ lookup_global patched_globals "summary_data_from_transaction_data"
       = Ok (PyAggregator f)
    /\ f example_store "customer_id" "date" "monetary_value"
         (series_max (map (row_cell j) (df_rows example_store)))
       = Ok example_rfm.
Proof.
  apply (prepare_lifetimes_data_success patched_globals example_store).
  reflexivity.
Defined.

Lemma series_max_nan (s : Series) :
  series_max s = NaN <-> forall x, In x s -> snd x = NaN.
Proof.
  unfold series_max, s_values.
  induction s as [|[l v] s IH]; simpl.
  - split; [intros _ x [] | reflexivity].
  - destruct v as [|q]; simpl.
    + rewrite IH. split.
      * intros H x [<- | Hx]; [reflexivity | now apply H].
      * intros H x Hx. apply H. now right.
    + split.
      * intro H. exfalso.
        destruct (fold_right cell_max NaN (map snd s)) as [|y];
          [discriminate|].
        destruct (Qle_bool q y); discriminate.
      * intro H. specialize (H (l, Num q) (or_introl eq_refl)).
        discriminate.
Qed.

(** X5: on a store whose [date] column holds timestamps or NaT, as every
    column of this model does, line 28 never raises, not even when the store
    is empty; the end of observation it computes is NaT exactly when no row
    has a date. *)
Theorem observation_period_end_of_dateless_rows
    (df : DataFrame) (j : nat)
    (Hdate : position "date" (df_columns df) = Some j) :
  exists end_of_observation : cell,
    observation_period_end df = Ok end_of_observation
    /\ (end_of_observation = NaN
        <-> forall r, In r (df_rows df) -> nth j (snd r) NaN = NaN).
Proof.
  exists (series_max (map (row_cell j) (df_rows df))).
  split.
  - unfold observation_period_end.
    now rewrite (getitem_position _ _ _ Hdate).
  - rewrite series_max_nan. split.
    + intros H r Hr. apply (H (row_cell j r)). now apply in_map.
    + intros H x Hx. apply in_map_iff in Hx.
      destruct Hx as [r [<- Hr]]. simpl. now apply H.
Qed.

Lemma observation_period_end_of_dateless_rows_witness :
  exists end_of_observation : cell,
    observation_period_end (mkDataFrame ["customer_id"; "date"] [])
    = Ok end_of_observation
    /\ (end_of_observation = NaN
        <-> forall r : Z * list cell, In r [] -> nth 1 (snd r) NaN = NaN).
Proof.
  apply (observation_period_end_of_dateless_rows
           (mkDataFrame ["customer_id"; "date"] []) 1).
  reflexivity.
Defined.

(** ** Rectangular frames *)

Lemma insert_row_In (j : nat) (r x : Z * list cell) (rows : list (Z * list cell)) :
  In x (insert_row j r rows) <-> x = r \/ In x rows.
Proof.
  induction rows as [|r' rs IH]; simpl.
  - split; [intros [<- | []]; now left | intros [-> | []]; now left].
  - destruct (ranks_before _ _); simpl; rewrite ?IH; intuition congruence.
Qed.

Lemma sorted_rows_In (j : nat) (x : Z * list cell) (rows : list (Z * list cell)) :
  In x (fold_right (insert_row j) [] rows) <-> In x rows.
Proof.
  induction rows as [|r rs IH]; simpl; [reflexivity|].
  rewrite insert_row_In, IH. intuition congruence.
Qed.

Lemma firstn_subset {A : Type} (n : nat) (l : list A) (x : A) :
  In x (firstn n l) -> In x l.
Proof.
  intro H. rewrite <- (firstn_skipn n l). apply in_or_app. now left.
Qed.

(** X6: every step that builds a frame keeps it rectangular: the rename of
    the loader, the query of the training step, the column assignment of the
    scoring step whenever it goes through, and the sorted head of the top-10
    table. *)
Theorem well_formed_is_kept (df : DataFrame) (Hwf : well_formed df) :
  (forall old new, well_formed (rename_column old new df))
  /\ (forall ready,
        query_frequency_and_monetary_value df = Ok ready -> well_formed ready)
  /\ (forall name s out, setitem df name s = Ok out -> well_formed out)
  /\ (forall name sorted n,
        sort_values_descending df name = Ok sorted ->
        well_formed (head n sorted)).
Proof.
  split; [|split; [|split]].
  - intros old new. unfold well_formed in *. rewrite Forall_forall in Hwf.
    simpl. rewrite length_map. now apply Forall_forall.
  - intros ready Hq. unfold well_formed in *. rewrite Forall_forall in Hwf.
    unfold query_frequency_and_monetary_value in Hq.
    destruct (position "frequency" (df_columns df)); [|discriminate].
    destruct (position "monetary_value" (df_columns df)); [|discriminate].
    injection Hq as <-. simpl. apply Forall_forall.
    intros r Hr. apply filter_In in Hr. now apply Hwf.
  - intros name s out. now apply setitem_well_formed.
  - intros name sorted n Hs. unfold well_formed in *.
    rewrite Forall_forall in Hwf. unfold sort_values_descending in Hs.
    destruct (position name (df_columns df)) as [j|]; [|discriminate].
    injection Hs as <-. simpl. apply Forall_forall.
    intros r Hr. apply firstn_subset in Hr. apply sorted_rows_In in Hr.
    now apply Hwf.
Qed.

Lemma example_rfm_well_formed : well_formed example_rfm.
Proof. repeat constructor. Qed.

Lemma well_formed_is_kept_witness :
  well_formed (assign_aligned example_rfm "predicted_clv_12_months" [])
  /\ well_formed (rename_column "T" "age" example_rfm).
Proof.
  destruct (well_formed_is_kept example_rfm example_rfm_well_formed)
    as [Hrename [_ [Hset _]]].
  split; [|apply Hrename].
  apply (Hset "predicted_clv_12_months" []). reflexivity.
Defined.

(** ** Model training (lines 39-48), further *)

Section TrainingFurther.

Context {L : Lifetimes}.

(** X7: whatever the library does, train_clv_models returns fitted models
    only for a summary that has all four columns frequency, recency, T and
    monetary_value. *)
Theorem train_clv_models_needs_columns
    (summary_df : DataFrame) (models : BetaGeoFitter * GammaGammaFitter)
    (Hok : train_clv_models summary_df = Ok models) :
  has_column "frequency" summary_df = true
  /\ has_column "recency" summary_df = true
  /\ has_column "T" summary_df = true
  /\ has_column "monetary_value" summary_df = true.
Proof.
  unfold train_clv_models, query_frequency_and_monetary_value, getitem,
    has_column in *.
  destruct (position "frequency" (df_columns summary_df)); [|discriminate].
  destruct (position "monetary_value" (df_columns summary_df)); [|discriminate].
  simpl in Hok.
  destruct (position "recency" (df_columns summary_df)); [|discriminate].
  destruct (position "T" (df_columns summary_df)); [|discriminate].
  repeat split.
Qed.

(** X8: when no customer has both frequency > 0 and monetary_value > 0 (a
    store of one-time buyers, say) the script has no guard of its own: after
    the BG/NBD fit the Gamma-Gamma fitter is called on two empty Series, and
    training ends as that call ends. *)
Theorem train_clv_models_without_repeat_buyers
    (summary_df : DataFrame) (jf jm : nat) (recency T : Series)
    (bgf : BetaGeoFitter)
    (Hf : position "frequency" (df_columns summary_df) = Some jf)
    (Hm : position "monetary_value" (df_columns summary_df) = Some jm)
    (Hr : getitem summary_df "recency" = Ok recency)
    (HT : getitem summary_df "T" = Ok T)
    (Hbgf : bgf_fit 0 (map (row_cell jf) (df_rows summary_df)) recency T
            = Ok bgf)
    (Hnone : forall r, In r (df_rows summary_df) ->
                       row_positive jf jm r = false) :
  train_clv_models summary_df
  = (ggf <- ggf_fit 0 [] [] ;; Ok (bgf, ggf)).
Proof.
  rewrite (train_clv_models_fit_input _ _ _ _ _ _ Hf Hm Hr HT Hbgf).
  now rewrite (filter_nothing _ _ Hnone).
Qed.

End TrainingFurther.

Lemma train_clv_models_needs_columns_witness :
  has_column "frequency" example_rfm = true
  /\ has_column "recency" example_rfm = true
  /\ has_column "T" example_rfm = true
  /\ has_column "monetary_value" example_rfm = true.
Proof.
  apply (@train_clv_models_needs_columns stub_lifetimes example_rfm
           (([(1%Z, Num 2); (2%Z, Num 0); (7%Z, Num 2)],
             [(1%Z, Num 20); (2%Z, Num 0); (7%Z, Num 5)],
             [(1%Z, Num 20); (2%Z, Num 5); (7%Z, Num 9)]),
            ([(1%Z, Num 2)], [(1%Z, Num 25)]))).
  reflexivity.
Defined.

(** A summary of two one-time buyers. *)
Lemma train_clv_models_without_repeat_buyers_witness :
  @train_clv_models stub_lifetimes
    (mkDataFrame ["frequency"; "recency"; "T"; "monetary_value"]
       [ (1%Z, [Num 0; Num 0; Num 5; Num 0]);
         (2%Z, [Num 0; Num 0; Num 8; Num 0]) ])
  = Ok (([(1%Z, Num 0); (2%Z, Num 0)],
         [(1%Z, Num 0); (2%Z, Num 0)],
         [(1%Z, Num 5); (2%Z, Num 8)]),
        ([], [])).
Proof.
  apply (@train_clv_models_without_repeat_buyers stub_lifetimes
           (mkDataFrame ["frequency"; "recency"; "T"; "monetary_value"]
              [ (1%Z, [Num 0; Num 0; Num 5; Num 0]);
                (2%Z, [Num 0; Num 0; Num 8; Num 0]) ])
           0 3
           [(1%Z, Num 0); (2%Z, Num 0)]
           [(1%Z, Num 5); (2%Z, Num 8)]
           ([(1%Z, Num 0); (2%Z, Num 0)],
            [(1%Z, Num 0); (2%Z, Num 0)],
            [(1%Z, Num 5); (2%Z, Num 8)])
           eq_refl eq_refl eq_refl eq_refl eq_refl).
  intros r [<- | [<- | []]]; reflexivity.
Defined.

(** X9: the query of line 43 only drops rows: it keeps the columns, every
    row it returns is a row of the summary, and querying its result again
    changes nothing. *)
Theorem query_is_idempotent
    (df ready : DataFrame)
    (Hq : query_frequency_and_monetary_value df = Ok ready) :
  df_columns ready = df_columns df
  /\ (forall r, In r (df_rows ready) -> In r (df_rows df))
  /\ query_frequency_and_monetary_value ready = Ok ready.
Proof.
  unfold query_frequency_and_monetary_value in *.
  destruct (position "frequency" (df_columns df)) as [jf|] eqn:Hf;
    [|discriminate].
  destruct (position "monetary_value" (df_columns df)) as [jm|] eqn:Hm;
    [|discriminate].
  injection Hq as <-. simpl. rewrite Hf, Hm.
  split; [reflexivity|]. split.
  - intros r Hr. now apply filter_In in Hr.
  - now rewrite filter_twice.
Qed.

Lemma query_is_idempotent_witness :
  df_columns (mkDataFrame ["frequency"; "recency"; "T"; "monetary_value"]
                [(1%Z, [Num 2; Num 20; Num 20; Num 25])])
  = df_columns example_rfm
  /\ (forall r,
        In r (df_rows (mkDataFrame
                         ["frequency"; "recency"; "T"; "monetary_value"]
                         [(1%Z, [Num 2; Num 20; Num 20; Num 25])])) ->
        In r (df_rows example_rfm))
  /\ query_frequency_and_monetary_value
       (mkDataFrame ["frequency"; "recency"; "T"; "monetary_value"]
          [(1%Z, [Num 2; Num 20; Num 20; Num 25])])
     = Ok (mkDataFrame ["frequency"; "recency"; "T"; "monetary_value"]
             [(1%Z, [Num 2; Num 20; Num 20; Num 25])]).
Proof.
  apply (query_is_idempotent example_rfm). reflexivity.
Defined.

(** ** CLV scoring (lines 68-78), further *)

Section ScoringFurther.

Context {L : Lifetimes}.
Variables (bgf_model : BetaGeoFitter) (ggf_model : GammaGammaFitter).

(** X10: when the scorer answers with one value per customer, under the
    labels of the RFM table, reading the new column back gives exactly the
    Series the scorer returned. *)
Theorem clv_forecast_scores_read_back
    (rfm_df : DataFrame) (jf jr jt jm : nat) (clv : Series)
    (Hwf : well_formed rfm_df)
    (Hunique : NoDup (df_index rfm_df))
    (Hf : position "frequency" (df_columns rfm_df) = Some jf)
    (Hr : position "recency" (df_columns rfm_df) = Some jr)
    (Ht : position "T" (df_columns rfm_df) = Some jt)
    (Hm : position "monetary_value" (df_columns rfm_df) = Some jm)
    (Hclv : customer_lifetime_value ggf_model bgf_model
              (map (row_cell jf) (df_rows rfm_df))
              (map (row_cell jr) (df_rows rfm_df))
              (map (row_cell jt) (df_rows rfm_df))
              (map (row_cell jm) (df_rows rfm_df))
              12 (1 # 100) = Ok clv)
    (Hlabels : s_index clv = df_index rfm_df) :
  exists out : DataFrame,
    clv_forecast bgf_model ggf_model rfm_df = Ok out
    /\ getitem out "predicted_clv_12_months" = Ok clv.
Proof.
  destruct (getitem_setitem_same_index rfm_df "predicted_clv_12_months" clv
              Hwf Hlabels) as [out [Hset Hget]].
  exists out. split; [|exact Hget].
  rewrite (clv_forecast_unfold _ _ _ _ _ _ _ Hf Hr Ht Hm), Hclv.
  exact Hset.
Qed.

(** X11: scoring changes nothing but the predicted column: in the scored
    frame of a table with at least one customer every other column, the
    four RFM columns among them, reads as it did before.  A table without
    rows takes the labels of the Series that was assigned, and its other
    columns then read NaN under those labels. *)
Theorem clv_forecast_keeps_other_columns
    (rfm_df out : DataFrame) (name : string)
    (Hwf : well_formed rfm_df)
    (Hout : clv_forecast bgf_model ggf_model rfm_df = Ok out)
    (Hname : name <> "predicted_clv_12_months") :
  (df_rows rfm_df <> [] -> getitem out name = getitem rfm_df name)
  /\ (df_rows rfm_df = [] ->
      exists clv : Series,
        setitem rfm_df "predicted_clv_12_months" clv = Ok out
        /\ getitem out name
           = match getitem rfm_df name with
             | Ok _ => Ok (map (fun x => (fst x, NaN)) clv)
             | Raise e => Raise e
             end).
Proof.
  destruct (clv_forecast_assigned _ _ _ _ Hout) as [clv Hset]. split.
  - intro Hne. eapply getitem_setitem_other; eassumption.
  - intro Hempty. exists clv. split; [exact Hset|].
    rewrite (getitem_setitem_other_empty _ _ _ _ _ Hempty Hset Hname).
    unfold getitem.
    destruct (position name (df_columns rfm_df)); reflexivity.
Qed.

End ScoringFurther.

Lemma example_rfm_unique_labels : NoDup (df_index example_rfm).
Proof.
  repeat constructor; simpl; intuition discriminate.
Qed.

Lemma clv_forecast_scores_read_back_witness :
  exists out : DataFrame,
    @clv_forecast stub_lifetimes
       ([(1%Z, Num 2); (2%Z, Num 0); (7%Z, Num 2)],
        [(1%Z, Num 20); (2%Z, Num 0); (7%Z, Num 5)],
        [(1%Z, Num 20); (2%Z, Num 5); (7%Z, Num 9)])
       ([(1%Z, Num 2)], [(1%Z, Num 25)])
       example_rfm = Ok out
    /\ s_index
         (match getitem out "predicted_clv_12_months" with
          | Ok s => s
          | Raise _ => []
          end) = [1%Z; 2%Z; 7%Z].
Proof.
  destruct (@clv_forecast_scores_read_back stub_lifetimes
              ([(1%Z, Num 2); (2%Z, Num 0); (7%Z, Num 2)],
               [(1%Z, Num 20); (2%Z, Num 0); (7%Z, Num 5)],
               [(1%Z, Num 20); (2%Z, Num 5); (7%Z, Num 9)])
              ([(1%Z, Num 2)], [(1%Z, Num 25)])
              example_rfm 0 1 2 3
              (map (fun x => (fst x,
                              stub_score 12 (1 # 100)
                                (lookup_label (fst x)
                                   (map (row_cell 3) (df_rows example_rfm)))))
                   (map (row_cell 0) (df_rows example_rfm)))
              example_rfm_well_formed example_rfm_unique_labels
              eq_refl eq_refl eq_refl eq_refl eq_refl eq_refl)
    as [out [Hout Hcol]].
  exists out. split; [exact Hout|]. rewrite Hcol. reflexivity.
Defined.

Lemma clv_forecast_keeps_other_columns_witness :
  getitem (assign_aligned example_rfm "predicted_clv_12_months"
             [(1%Z, Num 280); (2%Z, Num 0)]) "monetary_value"
  = getitem example_rfm "monetary_value".
Proof.
  apply (@clv_forecast_keeps_other_columns
           {| BetaGeoFitter := unit; GammaGammaFitter := unit;
              bgf_fit := fun _ _ _ _ => Ok tt;
              ggf_fit := fun _ _ _ => Ok tt;
              customer_lifetime_value :=
                fun _ _ _ _ _ _ _ _ => Ok [(1%Z, Num 280); (2%Z, Num 0)] |}
           tt tt example_rfm).
  - exact example_rfm_well_formed.
  - reflexivity.
  - discriminate.
  - discriminate.
Defined.

(** ** The recommendation (lines 110-117), further *)

(** X12: the recommendation never ranks a customer below one with a smaller
    predicted value: for fixed thresholds (missing ones included) the tier
    grows with the value. *)
Theorem recommendation_is_monotone
    (v1 v2 : Q) (clv_threshold_high clv_threshold_low : cell)
    (Hle : v1 <= v2) :
  (tier (recommendation (Num v1) clv_threshold_high clv_threshold_low)
   <= tier (recommendation (Num v2) clv_threshold_high clv_threshold_low))%nat.
Proof.
  unfold recommendation, cell_gt.
  destruct clv_threshold_high as [|h], clv_threshold_low as [|l]; simpl;
    try lia.
  - destruct (Qgtb v1 l) eqn:E1; [apply Qgtb_lt in E1|apply Qgtb_le in E1];
      (destruct (Qgtb v2 l) eqn:E2; [apply Qgtb_lt in E2|apply Qgtb_le in E2]);
      simpl; try lia. lra.
  - destruct (Qgtb v1 h) eqn:E1; [apply Qgtb_lt in E1|apply Qgtb_le in E1];
      (destruct (Qgtb v2 h) eqn:E2; [apply Qgtb_lt in E2|apply Qgtb_le in E2]);
      simpl; try lia. lra.
  - destruct (Qgtb v1 h) eqn:H1; [apply Qgtb_lt in H1|apply Qgtb_le in H1];
      (destruct (Qgtb v2 h) eqn:H2; [apply Qgtb_lt in H2|apply Qgtb_le in H2]);
      (destruct (Qgtb v1 l) eqn:L1; [apply Qgtb_lt in L1|apply Qgtb_le in L1]);
      (destruct (Qgtb v2 l) eqn:L2; [apply Qgtb_lt in L2|apply Qgtb_le in L2]);
      simpl; try lia; lra.
Qed.

Lemma recommendation_is_monotone_witness :
  (tier (recommendation (Num 2) (Num (29 # 5)) (Num (11 # 5)))
   <= tier (recommendation (Num 10) (Num (29 # 5)) (Num (11 # 5))))%nat.
Proof.
  apply recommendation_is_monotone. discriminate.
Defined.







(** ** The selected customer (lines 96-117), further *)

(** X14: in a scored table with unique labels and the four columns the page
    shows, a listed customer gets a segment exactly when the row's frequency
    and recency are numbers; when one of them is missing, [int] of
    lines 103-104 raises ValueError before the recommendation is reached.
    A label the table does not list ends in a KeyError for that label. *)
Theorem segment_of_selected_by_label
    (rfm_df : DataFrame) (jp jf jr jm : nat) (customer_id_int : Z)
    (Hp : position "predicted_clv_12_months" (df_columns rfm_df) = Some jp)
    (Hf : position "frequency" (df_columns rfm_df) = Some jf)
    (Hr : position "recency" (df_columns rfm_df) = Some jr)
    (Hm : position "monetary_value" (df_columns rfm_df) = Some jm)
    (Hunique : NoDup (df_index rfm_df)) :
  (forall row : list cell,
     In (customer_id_int, row) (df_rows rfm_df) ->
     match nth jf row NaN, nth jr row NaN with
     | Num _, Num _ =>
         exists s, segment_of_selected rfm_df customer_id_int = Ok s
     | _, _ => segment_of_selected rfm_df customer_id_int = Raise ValueError
     end)
  /\ (~ In customer_id_int (df_index rfm_df) ->
      segment_of_selected rfm_df customer_id_int
      = Raise (LabelKeyError customer_id_int)).
Proof.
  split.
  - intros row Hrow.
    pose proof (loc_unique rfm_df (customer_id_int, row) Hunique Hrow) as Hloc.
    simpl in Hloc.
    destruct (nth jf row NaN) as [|f] eqn:Hfreq.
    + unfold segment_of_selected, located_getitem.
      rewrite Hloc. simpl. rewrite Hp, Hf. simpl. now rewrite Hfreq.
    + destruct (nth jr row NaN) as [|r] eqn:Hrec.
      * unfold segment_of_selected, located_getitem.
        rewrite Hloc. simpl. rewrite Hp, Hf, Hr. simpl.
        rewrite Hfreq. simpl. now rewrite Hrec.
      * eexists.
        apply (segment_of_selected_recommendation rfm_df jp jf jr jm
                 customer_id_int row f r); assumption.
  - intro Hnotin. unfold segment_of_selected.
    now rewrite (loc_missing _ _ Hnotin).
Qed.

Lemma example_scored_unique_labels : NoDup (df_index example_scored).
Proof.
  repeat constructor; simpl; intuition discriminate.
Qed.

Lemma segment_of_selected_by_label_witness :
  (exists s, segment_of_selected example_scored 1 = Ok s)
  /\ segment_of_selected example_scored 3 = Raise (LabelKeyError 3).
Proof.
  destruct (segment_of_selected_by_label example_scored 4 0 1 3 1
              eq_refl eq_refl eq_refl eq_refl example_scored_unique_labels)
    as [Hlisted _].
  destruct (segment_of_selected_by_label example_scored 4 0 1 3 3
              eq_refl eq_refl eq_refl eq_refl example_scored_unique_labels)
    as [_ Hunlisted].
  split.
  - apply (Hlisted [Num 2; Num 20; Num 20; Num 25; Num 280]).
    simpl. tauto.
  - apply Hunlisted. simpl. intuition discriminate.
Defined.

Section Unscored.

Context {L : Lifetimes}.
Variables (bgf_model : BetaGeoFitter) (ggf_model : GammaGammaFitter).

(** X15: take a customer of the table whose frequency and recency are
    numbers, and a scorer whose Series repeats no label and holds no value,
    or NaN, for that customer.  The column assignment of line 78 then goes
    through and leaves NaN as the customer's predicted value, and the page
    labels the customer LOW: both comparisons with NaN are False. *)
Theorem unscored_customer_is_LOW
    (rfm_df : DataFrame) (jf jr jt jm : nat) (clv : Series)
    (customer_id_int : Z) (row : list cell) (f r : Q)
    (Hwf : well_formed rfm_df)
    (Hunique : NoDup (df_index rfm_df))
    (Hrow : In (customer_id_int, row) (df_rows rfm_df))
    (Hf : position "frequency" (df_columns rfm_df) = Some jf)
    (Hr : position "recency" (df_columns rfm_df) = Some jr)
    (Ht : position "T" (df_columns rfm_df) = Some jt)
    (Hm : position "monetary_value" (df_columns rfm_df) = Some jm)
    (Hfreq : nth jf row NaN = Num f)
    (Hrec : nth jr row NaN = Num r)
    (Hclv : customer_lifetime_value ggf_model bgf_model
              (map (row_cell jf) (df_rows rfm_df))
              (map (row_cell jr) (df_rows rfm_df))
              (map (row_cell jt) (df_rows rfm_df))
              (map (row_cell jm) (df_rows rfm_df))
              12 (1 # 100) = Ok clv)
    (Hlabels : NoDup (s_index clv))
    (Hmissing : lookup_label customer_id_int clv = NaN) :
  exists out : DataFrame,
    clv_forecast bgf_model ggf_model rfm_df = Ok out
    /\ segment_of_selected out customer_id_int = Ok LOW.
Proof.
  set (name := "predicted_clv_12_months").
  set (out := assign_aligned rfm_df name clv).
  assert (Hne : df_rows rfm_df <> []).
  { intro E. rewrite E in Hrow. contradiction. }
  assert (Hset : setitem rfm_df name clv = Ok out)
    by now apply setitem_unique_labels.
  exists out. split.
  - rewrite (clv_forecast_unfold _ _ _ _ _ _ _ Hf Hr Ht Hm), Hclv.
    exact Hset.
  - assert (Hlen : List.length row = List.length (df_columns rfm_df)).
    { unfold well_formed in Hwf. rewrite Forall_forall in Hwf.
      apply (Hwf _ Hrow). }
    set (row' := put_cell (position name (df_columns rfm_df)) NaN row).
    assert (Hrow' : In (customer_id_int, row') (df_rows out)).
    { unfold out, assign_aligned. simpl. apply in_map_iff.
      exists (customer_id_int, row). split; [|assumption].
      simpl. now rewrite Hmissing. }
    assert (Hidx : df_index out = df_index rfm_df).
    { rewrite (setitem_index _ _ _ _ Hset).
      destruct (df_rows rfm_df); [congruence | reflexivity]. }
    assert (Hloc : loc out customer_id_int = Ok (OneRow row')).
    { apply (loc_unique out (customer_id_int, row')); [|assumption].
      rewrite Hidx. exact Hunique. }
    destruct (columns_with_position rfm_df name) as [jp [Hp Hcell]].
    destruct (columns_with_other rfm_df name "frequency") as [Hf' Hcf];
      [discriminate|].
    destruct (columns_with_other rfm_df name "recency") as [Hr' Hcr];
      [discriminate|].
    destruct (columns_with_other rfm_df name "monetary_value") as [Hm' _];
      [discriminate|].
    rewrite (segment_of_selected_recommendation out jp jf jr jm
               customer_id_int row' f r).
    + unfold row'. rewrite (Hcell NaN row Hlen). reflexivity.
    + exact Hp.
    + unfold out, assign_aligned; simpl. now rewrite Hf'.
    + unfold out, assign_aligned; simpl. now rewrite Hr'.
    + unfold out, assign_aligned; simpl. now rewrite Hm'.
    + exact Hloc.
    + unfold row'. now rewrite (Hcf jf NaN row Hf Hlen).
    + unfold row'. now rewrite (Hcr jr NaN row Hr Hlen).
Qed.

End Unscored.

(** The scorer of [partial_lifetimes] answers for customer 1 only; customer
    7 is LOW. *)
Lemma unscored_customer_is_LOW_witness :
  exists out : DataFrame,
    @clv_forecast partial_lifetimes
       ([(1%Z, Num 2); (2%Z, Num 0); (7%Z, Num 2)],
        [(1%Z, Num 20); (2%Z, Num 0); (7%Z, Num 5)],
        [(1%Z, Num 20); (2%Z, Num 5); (7%Z, Num 9)])
       ([(1%Z, Num 2)], [(1%Z, Num 25)])
       example_rfm = Ok out
    /\ segment_of_selected out 7 = Ok LOW.
Proof.
  apply (@unscored_customer_is_LOW partial_lifetimes
           ([(1%Z, Num 2); (2%Z, Num 0); (7%Z, Num 2)],
            [(1%Z, Num 20); (2%Z, Num 0); (7%Z, Num 5)],
            [(1%Z, Num 20); (2%Z, Num 5); (7%Z, Num 9)])
           ([(1%Z, Num 2)], [(1%Z, Num 25)])
           example_rfm 0 1 2 3
           [(1%Z, stub_score 12 (1 # 100) (Num 25))] 7%Z
           [Num 2; Num 5; Num 9; Num 0] 2 5
           example_rfm_well_formed example_rfm_unique_labels).
  - simpl. tauto.
  - reflexivity.
  - reflexivity.
  - reflexivity.
  - reflexivity.
  - reflexivity.
  - reflexivity.
  - reflexivity.
  - repeat constructor. simpl. tauto.
  - reflexivity.
Defined.

(** ** The whole run (lines 60-117) *)

(** X17: as app.py stands, no run ever shows a report: whatever the library,
    the file, the widget state and the cache, the main logic ends with
    nothing to analyse or with an exception. *)
Theorem main_never_reports
    (L : Lifetimes) (read_csv : result DataFrame)
    (selectbox : list Z -> option Z) (c : cache) (report : Report) :
  fst (main app_globals read_csv selectbox c) <> Ok (Some report).
Proof.
  unfold main.
  destruct (load_local_transaction_data read_csv c) as [[[df|]|e] c'];
    simpl; try discriminate.
  unfold analyse. rewrite prepare_lifetimes_data_unbound.
  destruct (has_column "date" df); discriminate.
Qed.

Lemma clv_forecast_has_column {L : Lifetimes}
    (bgf_model : BetaGeoFitter) (ggf_model : GammaGammaFitter)
    (rfm_df out : DataFrame) :
  clv_forecast bgf_model ggf_model rfm_df = Ok out ->
  has_column "predicted_clv_12_months" out = true.
Proof.
  intro Hout. destruct (clv_forecast_assigned _ _ _ _ Hout) as [clv Hset].
  unfold has_column.
  destruct (setitem_position _ _ _ _ Hset) as [j ->]. reflexivity.
Qed.

(** X18: when a run does show a report, the loader handed on a frame, the
    aggregator answered with a summary for it, and the report has a
    predicted column and lists exactly the customers of that summary (a
    summary without rows takes the labels of the scorer's Series); the
    segment it shows is the recommendation for the customer the select box
    returned among the customers of the report, and there is none when the
    select box returned nothing. *)
Theorem main_report_composition
    (L : Lifetimes) (g : globals) (read_csv : result DataFrame)
    (selectbox : list Z -> option Z) (c : cache) (report : Report)
    (Hrun : fst (main g read_csv selectbox c) = Ok (Some report)) :
  exists df summary : DataFrame,
    fst (load_local_transaction_data read_csv c) = Ok (Some df)
    /\ prepare_lifetimes_data g df = Ok summary
    /\ (df_rows summary <> [] ->
        df_index (report_rfm report) = df_index summary)
    /\ has_column "predicted_clv_12_months" (report_rfm report) = true
    /\ match selectbox (df_index (report_rfm report)) with
       | None => report_segment report = None
       | Some customer_id_int =>
           exists s,
             report_segment report = Some (customer_id_int, s)
             /\ segment_of_selected (report_rfm report) customer_id_int = Ok s
       end.
Proof.
  unfold main in Hrun.
  destruct (load_local_transaction_data read_csv c) as [[[df|]|e] c'];
    simpl in *; try discriminate.
  unfold analyse in Hrun.
  destruct (prepare_lifetimes_data g df) as [summary|] eqn:Hprep;
    [|discriminate].
  simpl in Hrun.
  destruct (train_clv_models summary) as [models|]; [|discriminate].
  simpl in Hrun.
  destruct (clv_forecast (fst models) (snd models) summary) as [out|] eqn:Hout;
    [|discriminate].
  simpl in Hrun.
  pose proof (clv_forecast_index _ _ _ _ Hout) as Hidx.
  pose proof (clv_forecast_has_column _ _ _ _ Hout) as Hcol.
  exists df, summary. split; [reflexivity|]. split; [exact Hprep|].
  destruct (selectbox (df_index out)) as [customer_id_int|] eqn:Hsel.
  - destruct (segment_of_selected out customer_id_int) as [s|] eqn:Hs;
      [|discriminate].
    simpl in Hrun. injection Hrun as <-. simpl.
    split; [exact Hidx|]. split; [exact Hcol|]. rewrite Hsel.
    exists s. split; [reflexivity | exact Hs].
  - simpl in Hrun. injection Hrun as <-. simpl.
    split; [exact Hidx|]. split; [exact Hcol|]. now rewrite Hsel.
Qed.

Lemma main_report_composition_witness :
  exists df summary : DataFrame,
    fst (load_local_transaction_data (Ok example_store) None) = Ok (Some df)
    /\ prepare_lifetimes_data patched_globals df = Ok summary
    /\ (df_rows summary <> [] ->
        df_index
          (report_rfm
             (match fst (@main stub_lifetimes patched_globals
                           (Ok example_store) (fun _ => Some 7%Z) None) with
              | Ok (Some r) => r
              | _ => mkReport example_rfm None
              end))
        = df_index summary).
Proof.
  destruct (main_report_composition stub_lifetimes patched_globals
              (Ok example_store) (fun _ => Some 7%Z) None
              (match fst (@main stub_lifetimes patched_globals
                            (Ok example_store) (fun _ => Some 7%Z) None) with
               | Ok (Some r) => r
               | _ => mkReport example_rfm None
               end) eq_refl)
    as [df [summary [Hload [Hprep [Hidx _]]]]].
  exists df, summary. repeat split; assumption.
Defined.

(** ** The top-10 table (line 130) *)

Lemma ranks_before_total (a b : cell) :
  ranks_before a b = false -> ranks_before b a = true.
Proof.
  destruct a as [|x], b as [|y]; simpl; try discriminate; try reflexivity.
  intro H. apply Qle_bool_iff.
  assert (Hlt : x < y) by (apply Qgtb_lt; unfold Qgtb; now rewrite H).
  now apply Qlt_le_weak.
Qed.

Lemma ranks_before_trans (a b c : cell) :
  ranks_before a b = true -> ranks_before b c = true ->
  ranks_before a c = true.
Proof.
  destruct a as [|x], b as [|y], c as [|z]; simpl;
    try discriminate; try reflexivity.
  rewrite !Qle_bool_iff. intros H1 H2. eapply Qle_trans; eassumption.
Qed.

Section TopTable.

Variable j : nat.

Let outranks (r r' : Z * list cell) : Prop :=
  ranks_before (nth j (snd r) NaN) (nth j (snd r') NaN) = true.

Lemma insert_row_permutation (r : Z * list cell) (rows : list (Z * list cell)) :
  Permutation (r :: rows) (insert_row j r rows).
Proof.
  induction rows as [|r' rs IH]; simpl; [apply Permutation_refl|].
  destruct (ranks_before _ _); [apply Permutation_refl|].
  eapply perm_trans; [apply perm_swap|]. now apply perm_skip.
Qed.

Lemma sorted_rows_permutation (rows : list (Z * list cell)) :
  Permutation rows (fold_right (insert_row j) [] rows).
Proof.
  induction rows as [|r rs IH]; simpl; [apply perm_nil|].
  eapply perm_trans; [|apply insert_row_permutation]. now apply perm_skip.
Qed.

Lemma insert_row_sorted (r : Z * list cell) (rows : list (Z * list cell)) :
  StronglySorted outranks rows ->
  StronglySorted outranks (insert_row j r rows).
Proof.
  induction rows as [|r' rs IH]; simpl; intro Hs.
  - repeat constructor.
  - inversion Hs as [|? ? Hrs Hall]; subst.
    destruct (ranks_before (nth j (snd r) NaN) (nth j (snd r') NaN)) eqn:E.
    + constructor; [assumption|]. constructor; [exact E|].
      rewrite Forall_forall in *. intros x Hx.
      unfold outranks in *. eapply ranks_before_trans; [exact E|].
      now apply Hall.
    + constructor; [now apply IH|].
      rewrite Forall_forall in *. intros x Hx.
      apply insert_row_In in Hx. destruct Hx as [-> | Hx].
      * unfold outranks. now apply ranks_before_total.
      * now apply Hall.
Qed.

Lemma sorted_rows_sorted (rows : list (Z * list cell)) :
  StronglySorted outranks (fold_right (insert_row j) [] rows).
Proof.
  induction rows as [|r rs IH]; simpl; [constructor|].
  now apply insert_row_sorted.
Qed.

Lemma sorted_head_outranks_tail (n : nat) (rows : list (Z * list cell)) :
  StronglySorted outranks rows ->
  StronglySorted outranks (firstn n rows)
  /\ forall r r', In r (firstn n rows) -> In r' (skipn n rows) ->
                  outranks r r'.
Proof.
  revert n. induction rows as [|x rows IH]; intros n Hs.
  - rewrite firstn_nil, skipn_nil. split; [constructor | intros ? ? []].
  - destruct n as [|n]; simpl.
    + split; [constructor | intros ? ? []].
    + inversion Hs as [|? ? Hrs Hall]; subst.
      destruct (IH n Hrs) as [Hsorted Hout]. split.
      * constructor; [assumption|].
        rewrite Forall_forall in *. intros y Hy. apply Hall.
        now apply firstn_subset in Hy.
      * intros r r' [<- | Hr] Hr'.
        -- rewrite Forall_forall in Hall. apply Hall.
           rewrite <- (firstn_skipn n rows). apply in_or_app. now right.
        -- now apply Hout.
Qed.

(** X19: on a scored table the top-10 table shows min(10, n) of the n
    customers, in descending order of predicted value with missing values
    last, under the columns of the table; the rows shown and the rows left
    out together are the rows of the table, and no row left out ranks
    strictly before a row shown. *)
Theorem top_customers_are_the_best
    (rfm_df : DataFrame)
    (Hpred : position "predicted_clv_12_months" (df_columns rfm_df) = Some j) :
  exists (top : DataFrame) (rest : list (Z * list cell)),
    top_customers rfm_df = Ok top
    /\ df_columns top = df_columns rfm_df
    /\ List.length (df_rows top) = Nat.min 10 (List.length (df_rows rfm_df))
    /\ Permutation (df_rows rfm_df) (df_rows top ++ rest)
    /\ StronglySorted
         (fun r r' => ranks_before (nth j (snd r) NaN) (nth j (snd r') NaN)
                      = true)
         (df_rows top)
    /\ (forall r r', In r (df_rows top) -> In r' rest ->
          ranks_before (nth j (snd r) NaN) (nth j (snd r') NaN) = true).
Proof.
  set (sorted := fold_right (insert_row j) [] (df_rows rfm_df)).
  exists (head 10 (mkDataFrame (df_columns rfm_df) sorted)),
         (skipn 10 sorted).
  split.
  - unfold top_customers, sort_values_descending. rewrite Hpred. reflexivity.
  - split; [reflexivity|]. unfold head. cbn [df_rows df_columns].
    pose proof (sorted_rows_permutation (df_rows rfm_df)) as Hperm.
    fold sorted in Hperm.
    destruct (sorted_head_outranks_tail 10 sorted
                (sorted_rows_sorted (df_rows rfm_df))) as [Hsorted Hout].
    split; [|split; [|split]].
    + rewrite length_firstn, (Permutation_length Hperm). reflexivity.
    + now rewrite firstn_skipn.
    + exact Hsorted.
    + exact Hout.
Qed.

End TopTable.

Lemma top_customers_are_the_best_witness :
  exists (top : DataFrame) (rest : list (Z * list cell)),
    top_customers example_scored = Ok top
    /\ List.length (df_rows top) = 3%nat
    /\ Permutation (df_rows example_scored) (df_rows top ++ rest).
Proof.
  destruct (top_customers_are_the_best 4 example_scored eq_refl)
    as [top [rest [Htop [_ [Hlen [Hperm _]]]]]].
  exists top, rest. repeat split; assumption.
Defined.

(** ** The option list (line 92) *)

Lemma str_injective (a b : Z) : str a = str b -> a = b.
Proof.
  unfold str. intro H.
  assert (Hnorm : forall z, Z.to_int z <> Decimal.Pos Decimal.Nil
                            /\ Z.to_int z <> Decimal.Neg Decimal.Nil).
  { intros [|p|p]; simpl; split; try discriminate;
      intro E; injection E as E;
      now apply DecimalPos.Unsigned.to_uint_nonnil in E. }
  apply DecimalZ.to_int_inj.
  assert (E : Some (Z.to_int a) = Some (Z.to_int b)).
  { rewrite <- (NilZero.isi (Z.to_int a)) by apply Hnorm.
    rewrite <- (NilZero.isi (Z.to_int b)) by apply Hnorm.
    now rewrite H. }
  now injection E.
Qed.

Lemma str_not_empty (a : Z) : str a <> "".
Proof.
  unfold str. destruct a as [|p|p]; simpl; try discriminate.
  unfold NilZero.string_of_uint.
  pose proof (DecimalPos.Unsigned.to_uint_nonnil p) as Hp.
  destruct (Pos.to_uint p); try contradiction; discriminate.
Qed.

(** X20: the select box is offered one option per customer of the table, no
    option is the empty string (which [if selected_customer:] would take for
    no selection), and customers with different labels get different
    options: a table with unique labels gives a list of distinct options. *)
Theorem customer_list_identifies_customers (rfm_df : DataFrame) :
  List.length (customer_list rfm_df) = List.length (df_rows rfm_df)
  /\ (forall option, In option (customer_list rfm_df) -> option <> "")
  /\ (forall a b : Z, str a = str b -> a = b)
  /\ (NoDup (df_index rfm_df) -> NoDup (customer_list rfm_df)).
Proof.
  unfold customer_list, df_index. split; [now rewrite !length_map|].
  split; [|split].
  - intros option Hin. apply in_map_iff in Hin.
    destruct Hin as [z [<- _]]. apply str_not_empty.
  - exact str_injective.
  - induction (map fst (df_rows rfm_df)) as [|z zs IH]; simpl; intro Hnd;
      [constructor|].
    inversion Hnd as [|? ? Hnotin Hnd']; subst.
    constructor; [|now apply IH].
    intro Hin. apply in_map_iff in Hin. destruct Hin as [z' [E Hz']].
    apply str_injective in E. subst. contradiction.
Qed.

Lemma customer_list_identifies_customers_witness :
  customer_list example_rfm = ["1"; "2"; "7"]
  /\ NoDup (customer_list example_rfm).
Proof.
  split; [reflexivity|].
  destruct (customer_list_identifies_customers example_rfm)
    as [_ [_ [_ Hnodup]]].
  apply Hnodup. exact example_rfm_unique_labels.
Defined.
